(** * Agent-Nexus RLM index: a shallow embedding of the indexer, the
      summarization adapter and the query script, with their properties.

    Sources embedded here:
    - [attached_assets/rlm_indexer_*.py]   (module [Indexer])
    - [attached_assets/ollama_adapter_*.py] (module [Adapter])
    - [attached_assets/rlm_query_*.py]     (module [Query])

    Conventions of the model.
    - A Python [str] is a [string]; one [ascii] stands for one character
      (code points below 256).
    - A [pathlib.Path] is the list of its [parts]; the [path] column of
      the [docs] table holds [str(path)], which the model keeps as the
      path itself.
    - The SQLite database is a pair of row lists in rowid order.  Row
      identifiers are [Z]; SQLite's 64-bit limit is never reached here.
    - Everything outside the program (file system, clock, the [ollama]
      process) is gathered in an environment [Env]; the effects of a run
      are threaded through a [World] by a small state-and-exception
      monad. *)

From Stdlib Require Import List String Ascii ZArith Bool Arith Lia.
Import ListNotations.
Local Open Scope string_scope.
Local Open Scope list_scope.

Set Implicit Arguments.
Set Warnings "-abstract-large-number".

(* ================================================================== *)
(** ** Python strings *)

Module PyStr.

Definition code (c : ascii) : nat := nat_of_ascii c.

Definition between (lo hi : nat) (c : ascii) : bool :=
  (lo <=? code c)%nat && (code c <=? hi)%nat.

(** [str.lower] on one character: ASCII capitals and the Latin-1
    capitals U+00C0..U+00DE (but not the multiplication sign U+00D7)
    move up by 32. *)
Definition lower_char (c : ascii) : ascii :=
  if between 65 90 c then ascii_of_nat (code c + 32)
  else if between 192 222 c && negb (code c =? 215)%nat
       then ascii_of_nat (code c + 32)
  else c.

Fixpoint lower (s : string) : string :=
  match s with
  | EmptyString => EmptyString
  | String c s' => String (lower_char c) (lower s')
  end.

(** [str.isspace] for one character. *)
Definition is_space (c : ascii) : bool :=
  between 9 13 c || between 28 32 c
  || (code c =? 133)%nat || (code c =? 160)%nat.

Definition is_empty (s : string) : bool :=
  match s with EmptyString => true | String _ _ => false end.

Fixpoint lstrip (s : string) : string :=
  match s with
  | EmptyString => EmptyString
  | String c s' => if is_space c then lstrip s' else s
  end.

Fixpoint rstrip (s : string) : string :=
  match s with
  | EmptyString => EmptyString
  | String c s' =>
      let r := rstrip s' in
      if is_space c && is_empty r then EmptyString else String c r
  end.

(** [s.strip()] *)
Definition strip (s : string) : string := rstrip (lstrip s).

(** [s[:n]] *)
Fixpoint slice_to (n : nat) (s : string) : string :=
  match n, s with
  | S n', String c s' => String c (slice_to n' s')
  | _, _ => EmptyString
  end.

(** [s[n:]] *)
Fixpoint slice_from (n : nat) (s : string) : string :=
  match n, s with
  | S n', String _ s' => slice_from n' s'
  | _, _ => s
  end.

(** [s.rfind(".")], [None] standing for -1. *)
Fixpoint rfind_dot (s : string) : option nat :=
  match s with
  | EmptyString => None
  | String c s' =>
      match rfind_dot s' with
      | Some i => Some (S i)
      | None => if Ascii.eqb c "." then Some 0%nat else None
      end
  end.

(** [sep.join(xs)] *)
Fixpoint join (sep : string) (xs : list string) : string :=
  match xs with
  | [] => EmptyString
  | [x] => x
  | x :: rest => x ++ sep ++ join sep rest
  end.

(** [a in b] for strings. *)
Fixpoint is_substring (a b : string) : bool :=
  String.prefix a b
  || match b with
     | EmptyString => false
     | String _ b' => is_substring a b'
     end.

(** [c * n] for a one-character string. *)
Fixpoint repeat_char (c : ascii) (n : nat) : string :=
  match n with
  | O => EmptyString
  | S n' => String c (repeat_char c n')
  end.

End PyStr.

(* ================================================================== *)
(** ** pathlib *)

Module PyPath.

(** A path is the list of its parts, the anchor ["/"] first. *)
Definition Path := list string.

Definition path_eqb (p q : Path) : bool :=
  if list_eq_dec string_dec p q then true else false.

(** [p / "a/b"] *)
Definition joinpath (p : Path) (rel : list string) : Path := p ++ rel.

(** [path.name]: the last part. *)
Definition name (p : Path) : string := last p EmptyString.

(** [path.suffix]: the text from the last dot of the name on, when
    that dot is neither the first nor the last character. *)
Definition suffix (p : Path) : string :=
  let nm := name p in
  match PyStr.rfind_dot nm with
  | Some i =>
      if (0 <? i)%nat && (i <? String.length nm - 1)%nat
      then PyStr.slice_from i nm
      else EmptyString
  | None => EmptyString
  end.

(** [path.relative_to(other)] succeeds exactly when the parts of
    [other] are a prefix of the parts of [path]; otherwise it raises
    [ValueError]. *)
Fixpoint is_relative_to (path other : Path) : bool :=
  match other, path with
  | [], _ => true
  | o :: other', p :: path' => String.eqb o p && is_relative_to path' other'
  | _ :: _, [] => false
  end.

End PyPath.
Import PyPath.

(* ================================================================== *)
(** ** The SQLite store *)

(** A row of [docs(id, path, source, created_at, updated_at)]. *)
Record DocRow := mkDoc {
  id : Z;
  path : Path;
  source : string;
  created_at : string;
  updated_at : string
}.

(** A row of [chunks(doc_id, layer, content, tags, summary)]. *)
Record ChunkRow := mkChunk {
  doc_id : Z;
  layer : string;
  content : string;
  tags : string;
  summary : string
}.

Record Store := mkStore {
  docs : list DocRow;
  chunks : list ChunkRow
}.

Definition empty_store : Store := mkStore [] [].

Definition set_docs (st : Store) (ds : list DocRow) : Store :=
  mkStore ds (chunks st).

Definition set_chunks (st : Store) (cs : list ChunkRow) : Store :=
  mkStore (docs st) cs.

(** Modelled from the spec: [schema.sql] is not among the sources.  The
    spec gives [docs.id] as a surrogate identifier assigned on first
    sighting; the model takes it to be SQLite's integer primary key, so a
    row inserted without an id gets one more than the largest id in use
    (1 in an empty table). *)
Definition next_rowid (ds : list DocRow) : Z :=
  1 + fold_right (fun r m => Z.max (id r) m) 0%Z ds.

(* ================================================================== *)
(** ** The outside world and the effect monad *)

(** The exceptions that can escape the indexer. *)
Inductive PyExc :=
| RuntimeError (msg : string)
| OSError (msg : string).

Inductive Result (A : Type) :=
| Ok (a : A)
| Raise (e : PyExc).
Arguments Ok {A} a.
Arguments Raise {A} e.

(** [subprocess.run(cmd, input=...)] and what it gives back. *)
Record Call := mkCall {
  call_cmd : list string;
  call_input : string
}.

Record CompletedProcess := mkProc {
  returncode : Z;
  stdout : string;
  stderr : string
}.

Record FileSystem := mkFS {
  fs_exists : Path -> bool;
  fs_rglob : Path -> list Path;        (* [base.rglob("*")] *)
  fs_is_dir : Path -> bool;
  fs_read_text : Path -> Result string (* [read_text(..., errors="ignore")] *)
}.

(** The environment of a run.  The [ollama] client is taken to be
    installed, so [subprocess.run] always returns a completed process; a
    server that cannot be reached shows as a non-zero return code with
    the client's message on standard error.  The backend sees the calls
    made so far, so it need not answer the same prompt twice in the same
    way. *)
Record Env := mkEnv {
  env_fs : FileSystem;
  env_clock : nat -> string;           (* [datetime.utcnow().isoformat()] *)
  env_run : list Call -> Call -> CompletedProcess
}.

(** The state a run threads along: the connection's view of the
    database (with its uncommitted writes), the database file as last
    committed, the subprocess calls made, the clock reads made and the
    paths reported on standard output. *)
Record World := mkWorld {
  conn : Store;
  disk : Store;
  calls : list Call;
  ticks : nat;
  indexed : list Path
}.

Definition M (A : Type) : Type := World -> Result A * World.

Definition ret {A} (a : A) : M A := fun w => (Ok a, w).

Definition bind {A B} (m : M A) (k : A -> M B) : M B :=
  fun w =>
    match m w with
    | (Ok a, w') => k a w'
    | (Raise e, w') => (Raise e, w')
    end.

Definition raise {A} (e : PyExc) : M A := fun w => (Raise e, w).

Declare Scope py_scope.
Delimit Scope py_scope with py.
Notation "x <- m ;; k" := (bind m (fun x => k))
  (at level 61, m at next level, right associativity) : py_scope.
Notation "m ;;; k" := (bind m (fun _ => k))
  (at level 61, right associativity) : py_scope.

(** [for x in xs: body(x)] *)
Fixpoint for_each {A} (xs : list A) (body : A -> M unit) : M unit :=
  match xs with
  | [] => ret tt
  | x :: rest => bind (body x) (fun _ => for_each rest body)
  end.

Definition lift_result {A} (r : Result A) : M A := fun w => (r, w).

(** Run a statement on the open connection. *)
Definition on_conn {A} (f : Store -> A * Store) : M A :=
  fun w =>
    let (a, st) := f (conn w) in
    (Ok a, mkWorld st (disk w) (calls w) (ticks w) (indexed w)).

(** [conn.commit()] *)
Definition commit : M unit :=
  fun w => (Ok tt, mkWorld (conn w) (conn w) (calls w) (ticks w) (indexed w)).

(** [datetime.utcnow().isoformat()] *)
Definition utcnow (E : Env) : M string :=
  fun w => (Ok (env_clock E (ticks w)),
            mkWorld (conn w) (disk w) (calls w) (S (ticks w)) (indexed w)).

(** [subprocess.run(cmd, input=input, text=True, capture_output=True)] *)
Definition subprocess_run (E : Env) (c : Call) : M CompletedProcess :=
  fun w => (Ok (env_run E (calls w) c),
            mkWorld (conn w) (disk w) (calls w ++ [c]) (ticks w) (indexed w)).

(** [print(f"Indexed {path}")] *)
Definition print_indexed (p : Path) : M unit :=
  fun w => (Ok tt,
            mkWorld (conn w) (disk w) (calls w) (ticks w) (indexed w ++ [p])).

(* ================================================================== *)
(** ** ollama_adapter.py *)

Module Adapter.
Local Open Scope py_scope.

Definition DEFAULT_MODEL : string := "llama3.1".

Definition private_instruction : string :=
  "Summarize the following text in 5-7 bullet points. Keep all key facts."
  ++ String (ascii_of_nat 10) (String (ascii_of_nat 10) EmptyString).

Definition public_instruction : string :=
  "Summarize the following text in 3-5 bullet points, "
  ++ "redacting sensitive details and removing specific names or identifiers."
  ++ String (ascii_of_nat 10) (String (ascii_of_nat 10) EmptyString).

(** The number of characters of the document that go into a prompt. *)
Definition PROMPT_BUDGET : nat := 6000.

Definition ollama_cmd (model : string) : list string :=
  ["ollama"; "run"; model].

(** [RuntimeError(proc.stderr.strip() or "ollama run failed")] *)
Definition backend_error (proc : CompletedProcess) : PyExc :=
  let diag := PyStr.strip (stderr proc) in
  RuntimeError (if PyStr.is_empty diag then "ollama run failed" else diag).

Definition ollama_generate_with (E : Env) (prompt model : string) : M string :=
  proc <- subprocess_run E (mkCall (ollama_cmd model) prompt) ;;
  if negb (returncode proc =? 0)%Z then raise (backend_error proc)
  else ret (PyStr.strip (stdout proc)).

Definition ollama_generate (E : Env) (prompt : string) : M string :=
  ollama_generate_with E prompt DEFAULT_MODEL.

Definition private_prompt (text : string) : string :=
  private_instruction ++ PyStr.slice_to PROMPT_BUDGET text.

Definition public_prompt (text : string) : string :=
  public_instruction ++ PyStr.slice_to PROMPT_BUDGET text.

Definition summarize_private (E : Env) (text : string) : M string :=
  ollama_generate E (private_prompt text).

Definition summarize_public (E : Env) (text : string) : M string :=
  ollama_generate E (public_prompt text).

(** The two subprocess calls made for a document. *)
Definition private_call (text : string) : Call :=
  mkCall (ollama_cmd DEFAULT_MODEL) (private_prompt text).

Definition public_call (text : string) : Call :=
  mkCall (ollama_cmd DEFAULT_MODEL) (public_prompt text).

End Adapter.

(* ================================================================== *)
(** ** rlm_indexer.py *)

Module Indexer.
Local Open Scope py_scope.

Definition BASE : Path :=
  ["/"; "Users"; "colbyblack"; "Desktop"; "Codex Scratchpad"].

Definition TARGET_DIRS : list Path :=
  [ joinpath BASE ["Agents"; "Shared"];
    joinpath BASE ["News"; "AI"; "NateBJones"];
    joinpath BASE ["Gifts"];
    joinpath BASE ["Research"] ].

Definition EXCLUDE : list Path :=
  [ joinpath BASE ["02_Notes"; "About_Me"; "Colby Black"; "Profile"; "06_Private"];
    joinpath BASE ["02_Notes"; "About_Me"; "Colby Black"; "Profile"; "04_Relationships"] ].

(** The length of the content snapshot kept in a chunk. *)
Definition SNAPSHOT_LEN : nat := 10000.

(** The loop over [EXCLUDE] in [should_index]: does [relative_to]
    succeed for one of the entries? *)
Definition under_exclude (p : Path) : bool :=
  existsb (fun ex => is_relative_to p ex) EXCLUDE.

Definition allowed_suffix (p : Path) : bool :=
  let s := PyStr.lower (suffix p) in
  String.eqb s ".md" || String.eqb s ".txt".

Definition should_index (fs : FileSystem) (p : Path) : bool :=
  if fs_is_dir fs p then false
  else if negb (allowed_suffix p) then false
  else if under_exclude p then false
  else true.

(** [SELECT id FROM docs WHERE path = ?] followed by [fetchone()] *)
Definition select_doc (p : Path) (ds : list DocRow) : option DocRow :=
  find (fun r => path_eqb (path r) p) ds.

(** [UPDATE docs SET updated_at=? WHERE id=?] *)
Definition touch_doc (now : string) (i : Z) (ds : list DocRow) : list DocRow :=
  map (fun r =>
         if (id r =? i)%Z
         then mkDoc (id r) (path r) (source r) (created_at r) now
         else r) ds.

(** The two branches of [upsert_doc] on the store. *)
Definition upsert_doc_store (now : string) (p : Path) (st : Store) : Z * Store :=
  match select_doc p (docs st) with
  | Some row =>
      (id row, set_docs st (touch_doc now (id row) (docs st)))
  | None =>
      let i := next_rowid (docs st) in
      (i, set_docs st (docs st ++ [mkDoc i p "scratchpad" now now]))
  end.

Definition upsert_doc (E : Env) (p : Path) : M Z :=
  now <- utcnow E ;;
  on_conn (upsert_doc_store now p).

Definition same_key (d : Z) (l : string) (c : ChunkRow) : bool :=
  (doc_id c =? d)%Z && String.eqb (layer c) l.

(** [DELETE FROM chunks WHERE doc_id=? AND layer=?] then the [INSERT]. *)
Definition upsert_chunk_store (d : Z) (l c s : string) (st : Store) : Store :=
  set_chunks st
    (filter (fun r => negb (same_key d l r)) (chunks st)
     ++ [mkChunk d l c "" s]).

Definition upsert_chunk (d : Z) (l c s : string) : M unit :=
  on_conn (fun st => (tt, upsert_chunk_store d l c s st)).

(** Modelled from the spec: [schema.sql], which [ensure_db] runs with
    [executescript], is not among the sources.  The spec has the store
    as the two tables [docs] and [chunks] and the batch as safe to run
    again on the same store, so the script creates the tables when they
    are missing and leaves an existing database as it is. *)
Definition run_schema (st : Store) : Store := st.

(** [ensure_db]: connect to the database file and run the schema
    script, which is committed at once.  In the source each of the
    three steps (connecting, reading [schema.sql], running it) can
    raise, and then [main] ends before any path is walked.  Here the
    database opens: what is proved of [main] is proved of the runs in
    which it does, and what holds of the walk however it ends is stated
    on the two loops of [main]. *)
Definition ensure_db : M unit :=
  fun w => (Ok tt, mkWorld (run_schema (disk w)) (run_schema (disk w))
                           (calls w) (ticks w) (indexed w)).

(** The body of the inner loop of [main] for one path. *)
Definition index_path (E : Env) (p : Path) : M unit :=
  if negb (should_index (env_fs E) p) then ret tt
  else
    text <- lift_result (fs_read_text (env_fs E) p) ;;
    d <- upsert_doc E p ;;
    private_summary <- Adapter.summarize_private E text ;;
    public_summary <- Adapter.summarize_public E text ;;
    upsert_chunk d "private" (PyStr.slice_to SNAPSHOT_LEN text) private_summary ;;;
    upsert_chunk d "public" (PyStr.slice_to SNAPSHOT_LEN text) public_summary ;;;
    commit ;;;
    print_indexed p.

(** The body of the outer loop of [main] for one target directory. *)
Definition index_base (E : Env) (base : Path) : M unit :=
  if negb (fs_exists (env_fs E) base) then ret tt
  else for_each (fs_rglob (env_fs E) base) (index_path E).

(** [main] with the list of target directories as an argument. *)
Definition main_over (E : Env) (dirs : list Path) : M unit :=
  ensure_db ;;;
  for_each dirs (index_base E).

(** [main]; the closing [conn.close()] comes after the last commit and
    changes nothing. *)
Definition main (E : Env) : M unit := main_over E TARGET_DIRS.

(** [snd (ensure_db w)]: the world once the database is open. *)
Definition opened (w : World) : World :=
  mkWorld (disk w) (disk w) (calls w) (ticks w) (indexed w).

(** The paths the two loops of [main] visit, in order. *)
Definition candidates (E : Env) (dirs : list Path) : list Path :=
  flat_map (fun base =>
              if fs_exists (env_fs E) base
              then fs_rglob (env_fs E) base else []) dirs.

(** The store after the [upsert_doc] of [index_path], with the id it
    returns. *)
Definition registered (E : Env) (p : Path) (w : World) : Z * Store :=
  upsert_doc_store (env_clock E (ticks w)) p (conn w).

(** The two [upsert_chunk] calls of [index_path]. *)
Definition write_chunks (d : Z) (text s1 s2 : string) (st : Store) : Store :=
  upsert_chunk_store d "public" (PyStr.slice_to SNAPSHOT_LEN text) s2
    (upsert_chunk_store d "private" (PyStr.slice_to SNAPSHOT_LEN text) s1 st).

(** A sequence of chunk replacements applied to a chunk table. *)
Definition replace_row (cs : list ChunkRow) (r : ChunkRow) : list ChunkRow :=
  filter (fun x => negb (same_key (doc_id r) (layer r) x)) cs ++ [r].

Definition replace_rows (rs : list ChunkRow) (cs : list ChunkRow)
  : list ChunkRow :=
  fold_left replace_row rs cs.

(** The key of [x] is replaced by one of [rs]. *)
Definition overwritten (rs : list ChunkRow) (x : ChunkRow) : bool :=
  existsb (fun r => same_key (doc_id r) (layer r) x) rs.

(** [ds'] still resolves every path that [ds] resolves, to the same
    id. *)
Definition resolves_like (ds ds' : list DocRow) : Prop :=
  forall q r, select_doc q ds = Some r ->
              exists r', select_doc q ds' = Some r' /\ id r' = id r.

(** The same environment with every file under an exclusion prefix
    made unreadable. *)
Definition hide_excluded (E : Env) : Env :=
  mkEnv (mkFS (fs_exists (env_fs E)) (fs_rglob (env_fs E))
              (fs_is_dir (env_fs E))
              (fun q => if under_exclude q
                        then Raise (OSError "excluded")
                        else fs_read_text (env_fs E) q))
        (env_clock E) (env_run E).

(** The world before the first run: an empty database, nothing
    called, nothing printed. *)
Definition blank : World := mkWorld empty_store empty_store [] 0 [].

(** Any number of batch runs one after the other, each in an
    environment of its own (the tree, the clock and the backend may
    change between runs). *)
Fixpoint after_runs (Es : list Env) (w : World) : World :=
  match Es with
  | [] => w
  | E :: rest => after_runs rest (snd (main E w))
  end.

(** The backend answers a call the same way whatever came before. *)
Definition deterministic (E : Env) : Prop :=
  forall h1 h2 c, env_run E h1 c = env_run E h2 c.

(** [text] is what [read_text] gives for some path that
    [should_index] lets through. *)
Definition indexable_text (E : Env) (text : string) : Prop :=
  exists q, should_index (env_fs E) q = true
            /\ under_exclude q = false
            /\ fs_read_text (env_fs E) q = Ok text.

(** [c] is one of the two calls made for such a text. *)
Definition prompt_of (E : Env) (c : Call) : Prop :=
  exists text, indexable_text E text
               /\ (c = Adapter.private_call text
                   \/ c = Adapter.public_call text).

(** [c] is a chunk row written for such a text. *)
Definition snapshot_of (E : Env) (c : ChunkRow) : Prop :=
  exists text, indexable_text E text
               /\ content c = PyStr.slice_to SNAPSHOT_LEN text
               /\ (layer c = "private" \/ layer c = "public").

(** What holds of every database built by batch runs alone: no
    document row has a path under an exclusion prefix, every chunk
    row belongs to a document row and to one of the two layers, and
    the chunk rows of one document hold the same content. *)
Definition sound (st : Store) : Prop :=
  Forall (fun d => under_exclude (path d) = false) (docs st)
  /\ Forall (fun c => exists d, In d (docs st) /\ id d = doc_id c)
            (chunks st)
  /\ Forall (fun c => layer c = "private" \/ layer c = "public")
            (chunks st)
  /\ (forall c1 c2, In c1 (chunks st) -> In c2 (chunks st) ->
                    doc_id c1 = doc_id c2 -> content c1 = content c2).

(** The five ways the loop body can go for one path, with the world
    each leaves. *)
Inductive Step (E : Env) (p : Path) (w : World)
  : Result unit * World -> Prop :=
| step_skip :
    should_index (env_fs E) p = false ->
    Step E p w (Ok tt, w)
| step_unreadable e :
    should_index (env_fs E) p = true ->
    fs_read_text (env_fs E) p = Raise e ->
    Step E p w (Raise e, w)
| step_private_fails text :
    should_index (env_fs E) p = true ->
    fs_read_text (env_fs E) p = Ok text ->
    (returncode (env_run E (calls w) (Adapter.private_call text)) =? 0)%Z
    = false ->
    Step E p w
         (Raise (Adapter.backend_error
                   (env_run E (calls w) (Adapter.private_call text))),
          mkWorld (snd (registered E p w)) (disk w)
                  (calls w ++ [Adapter.private_call text])
                  (S (ticks w)) (indexed w))
| step_public_fails text :
    should_index (env_fs E) p = true ->
    fs_read_text (env_fs E) p = Ok text ->
    (returncode (env_run E (calls w) (Adapter.private_call text)) =? 0)%Z
    = true ->
    (returncode (env_run E (calls w ++ [Adapter.private_call text])
                         (Adapter.public_call text)) =? 0)%Z = false ->
    Step E p w
         (Raise (Adapter.backend_error
                   (env_run E (calls w ++ [Adapter.private_call text])
                            (Adapter.public_call text))),
          mkWorld (snd (registered E p w)) (disk w)
                  (calls w ++ [Adapter.private_call text;
                               Adapter.public_call text])
                  (S (ticks w)) (indexed w))
| step_indexed text st' :
    should_index (env_fs E) p = true ->
    fs_read_text (env_fs E) p = Ok text ->
    (returncode (env_run E (calls w) (Adapter.private_call text)) =? 0)%Z
    = true ->
    (returncode (env_run E (calls w ++ [Adapter.private_call text])
                         (Adapter.public_call text)) =? 0)%Z = true ->
    st' = write_chunks
            (fst (registered E p w)) text
            (PyStr.strip
               (stdout (env_run E (calls w) (Adapter.private_call text))))
            (PyStr.strip
               (stdout (env_run E (calls w ++ [Adapter.private_call text])
                                (Adapter.public_call text))))
            (snd (registered E p w)) ->
    Step E p w
         (Ok tt,
          mkWorld st' st'
                  (calls w ++ [Adapter.private_call text;
                               Adapter.public_call text])
                  (S (ticks w)) (indexed w ++ [p])).

(** An exception that escapes [main] ends the process with the
    connection never committed, so the writes since the last [commit]
    are lost; a normal return closes the connection after the last
    commit.  Either way the database a run leaves behind is [disk]. *)
Definition database_after (r : Result unit * World) : Store := disk (snd r).

End Indexer.

(* ================================================================== *)
(** ** rlm_query.py *)

Module Query.

(** SQLite folds case in [LIKE] for the 26 ASCII letters only. *)
Definition sqlite_lower (c : ascii) : ascii :=
  if PyStr.between 65 90 c then ascii_of_nat (PyStr.code c + 32) else c.

Definition nocase_eqb (a b : ascii) : bool :=
  Ascii.eqb (sqlite_lower a) (sqlite_lower b).

(** [s LIKE p] without an ESCAPE clause: [%] stands for any run of
    characters, [_] for any one character, every other character for
    itself up to ASCII case.  This is the operator on text that holds
    no NUL character and for patterns of at most 50000 bytes: SQLite
    reads a text up to its first NUL, and refuses a longer pattern with
    an error. *)
Fixpoint like (p : string) : string -> bool :=
  match p with
  | EmptyString => fun s => PyStr.is_empty s
  | String c p' =>
      if Ascii.eqb c "%" then
        fix star (s : string) : bool :=
          like p' s
          || match s with
             | EmptyString => false
             | String _ s' => star s'
             end
      else if Ascii.eqb c "_" then
        fun s => match s with
                 | EmptyString => false
                 | String _ s' => like p' s'
                 end
      else
        fun s => match s with
                 | EmptyString => false
                 | String d s' => nocase_eqb c d && like p' s'
                 end
  end.

Definition LIMIT : nat := 10.

(** [chunks JOIN docs ON chunks.doc_id = docs.id].  The sources lack
    [schema.sql], so they do not fix the order in which SQLite walks the
    join; following the spec (results in storage order) the chunk table
    is the outer loop and each chunk is paired with the document rows
    of its id. *)
Definition joined (st : Store) : list (ChunkRow * DocRow) :=
  flat_map (fun c =>
              map (fun d => (c, d))
                  (filter (fun d => (doc_id c =? id d)%Z) (docs st)))
           (chunks st).

(** [WHERE chunks.layer='public' AND chunks.summary LIKE ?] *)
Definition where_clause (pattern : string) (cd : ChunkRow * DocRow) : bool :=
  String.eqb (layer (fst cd)) "public" && like pattern (summary (fst cd)).

Definition pattern_of (q : string) : string := "%" ++ q ++ "%".

(** The rows the [SELECT] picks, before projection. *)
Definition selected (q : string) (st : Store) : list (ChunkRow * DocRow) :=
  firstn LIMIT (filter (where_clause (pattern_of q)) (joined st)).

(** [cur.fetchall()]: the columns [docs.path, chunks.summary]. *)
Definition fetchall (q : string) (st : Store) : list (Path * string) :=
  map (fun cd => (path (snd cd), summary (fst cd))) (selected q st).

(** [" ".join(sys.argv[1:]).lower()] *)
Definition query_of (argv : list string) : string :=
  PyStr.lower (PyStr.join " " (tl argv)).

Inductive Outcome :=
| Usage                                  (* usage line, exit status 1 *)
| Printed (rows : list (Path * string)). (* "---", path, summary per row *)

Definition main (argv : list string) (st : Store) : Outcome :=
  if (List.length argv <? 2)%nat then Usage
  else Printed (fetchall (query_of argv) st).

(** The query operation of the spec: one free-text argument. *)
Definition search (keyword : string) (st : Store) : list (Path * string) :=
  fetchall (PyStr.lower keyword) st.

(** The match the spec describes, written from its words: the keyword
    occurs in the summary when case is ignored. *)
Definition spec_match (keyword summary_text : string) : bool :=
  PyStr.is_substring (PyStr.lower keyword) (PyStr.lower summary_text).

(** The two characters LIKE reads as wildcards. *)
Definition is_wildcard (c : ascii) : bool :=
  Ascii.eqb c "%" || Ascii.eqb c "_".

(** A keyword with no wildcard in it. *)
Fixpoint plain (q : string) : bool :=
  match q with
  | EmptyString => true
  | String c q' => negb (is_wildcard c) && plain q'
  end.

Fixpoint ascii_only (s : string) : bool :=
  match s with
  | EmptyString => true
  | String c s' => (PyStr.code c <? 128)%nat && ascii_only s'
  end.

(** [a] starts [b], and [a] occurs in [b], up to ASCII case. *)
Fixpoint nocase_prefix (a b : string) : bool :=
  match a, b with
  | EmptyString, _ => true
  | String x a', String y b' => nocase_eqb x y && nocase_prefix a' b'
  | String _ _, EmptyString => false
  end.

Fixpoint nocase_substring (a b : string) : bool :=
  nocase_prefix a b
  || match b with
     | EmptyString => false
     | String _ b' => nocase_substring a b'
     end.

End Query.

(* ================================================================== *)
(** ** Sample environments *)

Module Sample.
Import Indexer.

Definition fresh_world : World := blank.

Definition shared : Path := joinpath BASE ["Agents"; "Shared"].
Definition notes : Path := joinpath shared ["notes.md"].
Definition locked : Path := joinpath shared ["locked.md"].
Definition diary : Path :=
  joinpath BASE ["02_Notes"; "About_Me"; "Colby Black"; "Profile";
                 "06_Private"; "diary.md"].

Definition notes_text : string := "Meeting with Alice about salary $120k".
Definition diary_text : string := "Dear diary".

Definition permission_denied : PyExc :=
  OSError "[Errno 13] Permission denied".

(** A tree whose walk from [Agents/Shared] yields [files]; [locked]
    cannot be read. *)
Definition tree (files : list Path) : FileSystem :=
  mkFS (fun base => path_eqb base shared)
       (fun base => if path_eqb base shared then files else [])
       (fun _ => false)
       (fun p => if path_eqb p locked then Raise permission_denied
                 else if path_eqb p diary then Ok diary_text
                 else Ok notes_text).

Definition clock (n : nat) : string :=
  "2026-02-04T22:30:14." ++ PyStr.repeat_char "0" n.

(** A backend that answers every prompt with the same summary. *)
Definition steady (_ : list Call) (c : Call) : CompletedProcess :=
  mkProc 0 " - a meeting about pay " "".

(** A backend that cannot be reached. *)
Definition down (_ : list Call) (_ : Call) : CompletedProcess :=
  mkProc 1 "" "Error: could not connect to ollama app, is it running? ".

(** A backend that is stopped after its first answer. *)
Definition stops (h : list Call) (c : Call) : CompletedProcess :=
  match h with
  | [] => steady h c
  | _ :: _ => down h c
  end.

Definition env (files : list Path)
           (run : list Call -> Call -> CompletedProcess) : Env :=
  mkEnv (tree files) clock run.

(** An unreadable file walked before a readable one. *)
Definition locked_first : Env := env [locked; notes] steady.

(** A store with one document and its two chunks. *)
Definition small_store : Store :=
  mkStore [mkDoc 1 notes "scratchpad" "t0" "t0"]
          [mkChunk 1 "private" notes_text "" "Alice, salary $120k";
           mkChunk 1 "public" notes_text "" "abc"].

(** A document of 20000 characters. *)
Definition long_text : string := PyStr.repeat_char "x" 20000.

(** A tree that holds one file under an exclusion prefix next to an
    ordinary one. *)
Definition with_diary : Env := env [diary; notes] steady.

Definition notes_only : Env := env [notes] steady.

(** A tree whose only file holds the 20000-character document. *)
Definition long_file : Env :=
  mkEnv (mkFS (fun base => path_eqb base shared)
              (fun base => if path_eqb base shared then [notes] else [])
              (fun _ => false)
              (fun _ => Ok long_text))
        clock steady.

End Sample.

(* ================================================================== *)
(** ** rlm_api.py *)

Module Api.

Definition API_TOKEN : string := "CHANGE_ME".

(** [SummarizeRequest]: the JSON body, [mode] being ["public"] when the
    caller leaves it out. *)
Record SummarizeRequest := mkRequest {
  req_text : string;
  req_mode : string
}.

(** What a call of the endpoint function comes to: the dictionary it
    returns, the [HTTPException] it raises, or an exception of the
    adapter that passes through it. *)
Inductive Response :=
| Returned (summary_text : string)          (* [{"summary": ...}] *)
| HTTPException (status_code : Z) (detail : string)
| Raised (e : PyExc).

(** [summarize(req, x_token)] for a configured token. *)
Definition summarize_with (token : string) (E : Env)
           (req : SummarizeRequest) (x_token : string)
  : World -> Response * World :=
  fun w =>
    if negb (PyStr.is_empty token) && negb (String.eqb x_token token)
    then (HTTPException 401 "Unauthorized", w)
    else
      let answer :=
        if String.eqb (req_mode req) "private"
        then Adapter.summarize_private E (req_text req) w
        else Adapter.summarize_public E (req_text req) w in
      match answer with
      | (Ok s, w') => (Returned s, w')
      | (Raise e, w') => (Raised e, w')
      end.

Definition summarize : Env -> SummarizeRequest -> string
                       -> World -> Response * World :=
  summarize_with API_TOKEN.

End Api.

(* ================================================================== *)
(** ** Further vocabulary *)

(** The environment [E] with the text of [p] replaced by [text]. *)
Definition with_text (E : Env) (p : Path) (text : string) : Env :=
  mkEnv (mkFS (fs_exists (env_fs E)) (fs_rglob (env_fs E))
              (fs_is_dir (env_fs E))
              (fun q => if path_eqb q p then Ok text
                        else fs_read_text (env_fs E) q))
        (env_clock E) (env_run E).

(** The columns of a document row that identify it. *)
Definition doc_identity (d : DocRow) : Z * Path * string * string :=
  (id d, path d, source d, created_at d).

(** One row per id and one row per path. *)
Definition registry_ok (ds : list DocRow) : Prop :=
  NoDup (map id ds) /\ NoDup (map path ds).

(** The chunk table has exactly one row under the key [(d, l)]. *)
Definition exactly_one (d : Z) (l : string) (cs : list ChunkRow) : Prop :=
  exists c, filter (Indexer.same_key d l) cs = [c].

(** A store in which every document has its two chunks and no key has
    two rows. *)
Definition complete (st : Store) : Prop :=
  registry_ok (docs st)
  /\ Forall (fun d => exactly_one (id d) "private" (chunks st)
                      /\ exactly_one (id d) "public" (chunks st))
            (docs st)
  /\ (forall d l,
        (List.length (filter (Indexer.same_key d l) (chunks st)) <= 1)%nat).

(** A name the indexer takes: a stem that is not empty, a dot, and
    [md] or [txt] in any mix of cases. *)
Definition note_name (stem ext : string) : string :=
  (stem ++ String "." ext)%string.

Fixpoint has_dot (s : string) : bool :=
  match s with
  | EmptyString => false
  | String c s' => Ascii.eqb c "." || has_dot s'
  end.

(** A string with its ASCII capitals made small, as LIKE compares it. *)
Fixpoint fold_ascii (s : string) : string :=
  match s with
  | EmptyString => EmptyString
  | String c s' => String (Query.sqlite_lower c) (fold_ascii s')
  end.

(** The store with the summary of every chunk rewritten by [f]. *)
Definition map_summaries (f : string -> string) (st : Store) : Store :=
  mkStore (docs st)
          (map (fun c => mkChunk (doc_id c) (layer c) (content c) (tags c)
                                 (f (summary c)))
               (chunks st)).

(** A search by plain containment: the public rows whose summary
    holds the keyword when case is ignored, in storage order, at most
    ten. *)
Definition substring_search (keyword : string) (st : Store) : list (Path * string) :=
  firstn 10
    (map (fun cd => (path (snd cd), summary (fst cd)))
         (filter (fun cd => String.eqb (layer (fst cd)) "public"
                            && Query.spec_match keyword (summary (fst cd)))
                 (Query.joined st))).

(** Text that SQLite's [LIKE] reads whole and folds as Python's
    [lower] does: ASCII with no NUL character in it. *)
Fixpoint ascii_text (s : string) : bool :=
  match s with
  | EmptyString => true
  | String c s' =>
      (0 <? PyStr.code c)%nat && (PyStr.code c <? 128)%nat && ascii_text s'
  end.

(** The longest pattern, in bytes, that SQLite's [LIKE] accepts. *)
Definition SQLITE_MAX_LIKE_PATTERN_LENGTH : nat := 50000.

(** A string that does not begin with white space. *)
Definition no_lead (s : string) : Prop :=
  match s with
  | EmptyString => True
  | String c _ => PyStr.is_space c = false
  end.

(** The document table has a row for the path [p]. *)
Definition resolved (p : Path) (ds : list DocRow) : Prop :=
  exists r, Indexer.select_doc p ds = Some r.

(* ================================================================== *)
(** * Properties *)

(* ------------------------------------------------------------------ *)
(** ** Strings and paths *)

Section StringFacts.

Lemma slice_to_length n s :
  String.length (PyStr.slice_to n s) = Nat.min (String.length s) n.
Proof.
  revert s; induction n as [|n IH]; intros [|c s]; simpl; auto.
Qed.

Lemma slice_to_bounded n s : (String.length (PyStr.slice_to n s) <= n)%nat.
Proof. rewrite slice_to_length. apply Nat.le_min_r. Qed.

Lemma repeat_char_length c n : String.length (PyStr.repeat_char c n) = n.
Proof. induction n; simpl; congruence. Qed.

Lemma path_eqb_eq p q : path_eqb p q = true <-> p = q.
Proof.
  unfold path_eqb. destruct (list_eq_dec string_dec p q); split; congruence.
Qed.

Lemma path_eqb_refl p : path_eqb p p = true.
Proof. now apply path_eqb_eq. Qed.

Lemma path_eqb_neq p q : path_eqb p q = false <-> p <> q.
Proof.
  unfold path_eqb. destruct (list_eq_dec string_dec p q); split; congruence.
Qed.

End StringFacts.

(* ------------------------------------------------------------------ *)
(** ** The effect monad *)

Section MonadFacts.
Context {A B : Type}.

Lemma bind_ok (m : M A) (k : A -> M B) w a w' :
  m w = (Ok a, w') -> bind m k w = k a w'.
Proof. unfold bind. now intros ->. Qed.

Lemma bind_raise (m : M A) (k : A -> M B) w e w' :
  m w = (Raise e, w') -> bind m k w = (Raise e, w').
Proof. unfold bind. now intros ->. Qed.

End MonadFacts.

Section LoopFacts.
Context {A : Type}.
Variable body : A -> M unit.

Lemma for_each_app xs ys w :
  for_each (xs ++ ys) body w =
    bind (for_each xs body) (fun _ => for_each ys body) w.
Proof.
  revert w. induction xs as [|x xs IH]; intros w; simpl.
  - reflexivity.
  - unfold bind. destruct (body x w) as [[[]|e] w1].
    + rewrite IH. reflexivity.
    + reflexivity.
Qed.

Lemma for_each_ok_then xs ys w w1 :
  for_each xs body w = (Ok tt, w1) ->
  for_each (xs ++ ys) body w = for_each ys body w1.
Proof. intros H. rewrite for_each_app. unfold bind. now rewrite H. Qed.

Lemma for_each_cons_ok x xs w w1 :
  body x w = (Ok tt, w1) ->
  for_each (x :: xs) body w = for_each xs body w1.
Proof. intros H. simpl. unfold bind. now rewrite H. Qed.

Lemma for_each_cons_raise x xs w e w1 :
  body x w = (Raise e, w1) ->
  for_each (x :: xs) body w = (Raise e, w1).
Proof. intros H. simpl. unfold bind. now rewrite H. Qed.

End LoopFacts.

(* ------------------------------------------------------------------ *)
(** ** One candidate path: the five ways [index_path] can go *)

Section AdapterSteps.
Import Adapter.
Variable E : Env.

Lemma ollama_generate_fails prompt w :
  let c := mkCall (ollama_cmd DEFAULT_MODEL) prompt in
  (returncode (env_run E (calls w) c) =? 0)%Z = false ->
  ollama_generate E prompt w =
    (Raise (backend_error (env_run E (calls w) c)),
     mkWorld (conn w) (disk w) (calls w ++ [c]) (ticks w) (indexed w)).
Proof.
  intros c H. unfold ollama_generate, ollama_generate_with, bind, subprocess_run.
  fold c. rewrite H. reflexivity.
Qed.

Lemma ollama_generate_succeeds prompt w :
  let c := mkCall (ollama_cmd DEFAULT_MODEL) prompt in
  (returncode (env_run E (calls w) c) =? 0)%Z = true ->
  ollama_generate E prompt w =
    (Ok (PyStr.strip (stdout (env_run E (calls w) c))),
     mkWorld (conn w) (disk w) (calls w ++ [c]) (ticks w) (indexed w)).
Proof.
  intros c H. unfold ollama_generate, ollama_generate_with, bind, subprocess_run.
  fold c. rewrite H. reflexivity.
Qed.

End AdapterSteps.

Section Steps.
Import Indexer Adapter.
Variable E : Env.
Variables (p : Path) (w : World).

Lemma upsert_doc_runs :
  upsert_doc E p w =
    (Ok (fst (registered E p w)),
     mkWorld (snd (registered E p w)) (disk w) (calls w)
             (S (ticks w)) (indexed w)).
Proof.
  unfold upsert_doc, bind, utcnow, on_conn, registered. cbn [conn disk calls ticks indexed].
  destruct (upsert_doc_store _ p (conn w)); reflexivity.
Qed.

Lemma index_path_skip :
  should_index (env_fs E) p = false -> index_path E p w = (Ok tt, w).
Proof. intros H. unfold index_path. now rewrite H. Qed.

Lemma index_path_unreadable e :
  should_index (env_fs E) p = true ->
  fs_read_text (env_fs E) p = Raise e ->
  index_path E p w = (Raise e, w).
Proof.
  intros H R. unfold index_path, bind, lift_result. now rewrite H, R.
Qed.

Variable text : string.
Hypothesis Hidx : should_index (env_fs E) p = true.
Hypothesis Hread : fs_read_text (env_fs E) p = Ok text.

Let pr1 := env_run E (calls w) (private_call text).
Let pr2 := env_run E (calls w ++ [private_call text]) (public_call text).
Let d := fst (registered E p w).
Let st := snd (registered E p w).

Lemma index_path_reads :
  index_path E p w =
    bind (upsert_doc E p) (fun d =>
    bind (summarize_private E text) (fun private_summary =>
    bind (summarize_public E text) (fun public_summary =>
    bind (upsert_chunk d "private" (PyStr.slice_to SNAPSHOT_LEN text) private_summary) (fun _ =>
    bind (upsert_chunk d "public" (PyStr.slice_to SNAPSHOT_LEN text) public_summary) (fun _ =>
    bind commit (fun _ => print_indexed p)))))) w.
Proof.
  unfold index_path. rewrite Hidx. cbn [negb].
  unfold bind at 1, lift_result. now rewrite Hread.
Qed.

Lemma index_path_private_fails :
  (returncode pr1 =? 0)%Z = false ->
  index_path E p w =
    (Raise (backend_error pr1),
     mkWorld st (disk w) (calls w ++ [private_call text])
             (S (ticks w)) (indexed w)).
Proof.
  intros H. rewrite index_path_reads.
  erewrite bind_ok by apply upsert_doc_runs.
  apply bind_raise. unfold summarize_private.
  rewrite ollama_generate_fails; [reflexivity|exact H].
Qed.

Lemma index_path_public_fails :
  (returncode pr1 =? 0)%Z = true ->
  (returncode pr2 =? 0)%Z = false ->
  index_path E p w =
    (Raise (backend_error pr2),
     mkWorld st (disk w) (calls w ++ [private_call text; public_call text])
             (S (ticks w)) (indexed w)).
Proof.
  intros H1 H2. rewrite index_path_reads.
  erewrite bind_ok by apply upsert_doc_runs.
  unfold summarize_private, summarize_public.
  erewrite bind_ok by (apply ollama_generate_succeeds; exact H1).
  apply bind_raise.
  rewrite ollama_generate_fails; cbn [conn disk calls ticks indexed].
  - rewrite <- app_assoc. reflexivity.
  - exact H2.
Qed.

Lemma index_path_indexes :
  (returncode pr1 =? 0)%Z = true ->
  (returncode pr2 =? 0)%Z = true ->
  let st' := write_chunks d text (PyStr.strip (stdout pr1))
                          (PyStr.strip (stdout pr2)) st in
  index_path E p w =
    (Ok tt,
     mkWorld st' st' (calls w ++ [private_call text; public_call text])
             (S (ticks w)) (indexed w ++ [p])).
Proof.
  intros H1 H2 st'. rewrite index_path_reads.
  erewrite bind_ok by apply upsert_doc_runs.
  unfold summarize_private, summarize_public.
  erewrite bind_ok by (apply ollama_generate_succeeds; exact H1).
  erewrite bind_ok by (apply ollama_generate_succeeds; exact H2).
  cbn [conn disk calls ticks indexed].
  rewrite <- app_assoc. reflexivity.
Qed.

End Steps.

(* ------------------------------------------------------------------ *)
(** ** The store operations *)

Section ListFacts.
Context {A : Type}.

Lemma filter_all (f : A -> bool) l :
  Forall (fun x => f x = true) l -> filter f l = l.
Proof.
  induction 1 as [|x l Hx _ IH]; simpl; [reflexivity|].
  now rewrite Hx, IH.
Qed.

Lemma filter_none (f : A -> bool) l :
  Forall (fun x => f x = false) l -> filter f l = [].
Proof.
  induction 1 as [|x l Hx _ IH]; simpl; [reflexivity|].
  now rewrite Hx.
Qed.

Lemma filter_twice (f g : A -> bool) l :
  filter f (filter g l) = filter (fun x => g x && f x) l.
Proof.
  induction l as [|x l IH]; simpl; [reflexivity|].
  destruct (g x); simpl; [destruct (f x)|]; now rewrite IH.
Qed.

Lemma find_snoc (f : A -> bool) l x :
  find f (l ++ [x]) =
    match find f l with
    | Some y => Some y
    | None => if f x then Some x else None
    end.
Proof.
  induction l as [|y l IH]; simpl; [reflexivity|].
  destruct (f y); [reflexivity|exact IH].
Qed.

End ListFacts.

Section DocFacts.
Import Indexer.

Lemma select_doc_path p ds r : select_doc p ds = Some r -> path r = p.
Proof.
  unfold select_doc. intros H. apply find_some in H as [_ H].
  now apply path_eqb_eq.
Qed.

Lemma select_doc_in p ds r : select_doc p ds = Some r -> In r ds.
Proof. unfold select_doc. intros H. now apply find_some in H. Qed.

Lemma select_doc_none p ds :
  select_doc p ds = None <-> (forall r, In r ds -> path r <> p).
Proof.
  unfold select_doc. split.
  - intros H r Hr. apply path_eqb_neq. exact (find_none _ _ H r Hr).
  - intros H. induction ds as [|x ds IH]; simpl; [reflexivity|].
    destruct (path_eqb (path x) p) eqn:Hx.
    + apply path_eqb_eq in Hx. exfalso. apply (H x); [now left|exact Hx].
    + apply IH. intros r Hr. apply H. now right.
Qed.

Lemma touch_doc_columns now i ds :
  map id (touch_doc now i ds) = map id ds
  /\ map path (touch_doc now i ds) = map path ds
  /\ map source (touch_doc now i ds) = map source ds
  /\ map created_at (touch_doc now i ds) = map created_at ds.
Proof.
  induction ds as [|r ds (I1 & I2 & I3 & I4)]; simpl; [now repeat split|].
  rewrite I1, I2, I3, I4. now destruct (id r =? i)%Z.
Qed.

Lemma touch_doc_length now i ds :
  List.length (touch_doc now i ds) = List.length ds.
Proof. apply length_map. Qed.

Lemma select_doc_touch now i p ds :
  match select_doc p ds with
  | Some r => exists r', select_doc p (touch_doc now i ds) = Some r'
                         /\ id r' = id r
  | None => select_doc p (touch_doc now i ds) = None
  end.
Proof.
  unfold select_doc. induction ds as [|x ds IH]; simpl; [reflexivity|].
  destruct (id x =? i)%Z; simpl; destruct (path_eqb (path x) p); eauto.
Qed.

Lemma next_rowid_above ds r : In r ds -> (id r < next_rowid ds)%Z.
Proof.
  unfold next_rowid. induction ds as [|x ds IH]; [contradiction|].
  cbn [fold_right]. intros [->|H]; [lia|]. specialize (IH H). lia.
Qed.

Lemma next_rowid_fresh ds : ~ In (next_rowid ds) (map id ds).
Proof.
  intros H. apply in_map_iff in H as (r & Hr & Hin).
  apply next_rowid_above in Hin. lia.
Qed.

Section Upsert.
Variables (now : string) (p : Path) (st : Store).

Lemma upsert_doc_store_known r :
  select_doc p (docs st) = Some r ->
  upsert_doc_store now p st =
    (id r, set_docs st (touch_doc now (id r) (docs st))).
Proof. unfold upsert_doc_store. now intros ->. Qed.

Lemma upsert_doc_store_new :
  select_doc p (docs st) = None ->
  upsert_doc_store now p st =
    (next_rowid (docs st),
     set_docs st (docs st ++
                  [mkDoc (next_rowid (docs st)) p "scratchpad" now now])).
Proof. unfold upsert_doc_store. now intros ->. Qed.

Lemma upsert_doc_store_chunks :
  chunks (snd (upsert_doc_store now p st)) = chunks st.
Proof. unfold upsert_doc_store. now destruct (select_doc p (docs st)). Qed.

Lemma upsert_doc_store_selects :
  exists r, select_doc p (docs (snd (upsert_doc_store now p st))) = Some r
            /\ id r = fst (upsert_doc_store now p st).
Proof.
  unfold upsert_doc_store. destruct (select_doc p (docs st)) as [r|] eqn:H.
  - simpl. pose proof (select_doc_touch now (id r) p (docs st)) as T.
    now rewrite H in T.
  - simpl. unfold select_doc in *. rewrite find_snoc, H. simpl.
    rewrite path_eqb_refl. eauto.
Qed.

Lemma upsert_doc_store_resolves :
  resolves_like (docs st) (docs (snd (upsert_doc_store now p st))).
Proof.
  intros q r Hq. unfold upsert_doc_store.
  destruct (select_doc p (docs st)) as [r0|] eqn:H; simpl.
  - pose proof (select_doc_touch now (id r0) q (docs st)) as T.
    now rewrite Hq in T.
  - unfold select_doc in *. rewrite find_snoc, Hq. eauto.
Qed.

End Upsert.

Lemma resolves_like_refl ds : resolves_like ds ds.
Proof. intros q r H. eauto. Qed.

Lemma resolves_like_trans a b c :
  resolves_like a b -> resolves_like b c -> resolves_like a c.
Proof.
  intros H1 H2 q r H. destruct (H1 q r H) as (r1 & Hr1 & E1).
  destruct (H2 q r1 Hr1) as (r2 & Hr2 & E2). exists r2. split; congruence.
Qed.

Lemma upsert_doc_store_resolved now p st st0 r :
  resolves_like st0 (docs st) ->
  select_doc p st0 = Some r ->
  fst (upsert_doc_store now p st) = id r.
Proof.
  intros H Hs. destruct (H p r Hs) as (r' & Hr' & <-).
  now rewrite (upsert_doc_store_known now p st Hr').
Qed.

End DocFacts.

Section ChunkFacts.
Import Indexer.

Lemma same_key_spec d l c :
  same_key d l c = true <-> doc_id c = d /\ layer c = l.
Proof.
  unfold same_key. rewrite andb_true_iff, Z.eqb_eq, String.eqb_eq. tauto.
Qed.

Lemma upsert_chunk_store_rows d l c s st :
  chunks (upsert_chunk_store d l c s st) =
    replace_row (chunks st) (mkChunk d l c "" s).
Proof. reflexivity. Qed.

(** After a replacement the rows under the replaced key are the new
    row alone. *)
Lemma replace_row_own cs r :
  filter (same_key (doc_id r) (layer r)) (replace_row cs r) = [r].
Proof.
  unfold replace_row. rewrite filter_app, filter_twice.
  rewrite filter_none.
  - simpl. now rewrite (proj2 (same_key_spec (doc_id r) (layer r) r)).
  - apply Forall_forall. intros x _.
    now destruct (same_key (doc_id r) (layer r) x).
Qed.

(** Rows under another key are untouched by a replacement. *)
Lemma replace_row_other cs r d l :
  same_key d l r = false ->
  filter (same_key d l) (replace_row cs r) = filter (same_key d l) cs.
Proof.
  intros H. unfold replace_row. rewrite filter_app, filter_twice. simpl.
  rewrite H, app_nil_r. apply filter_ext. intros x.
  destruct (same_key d l x) eqn:Hx; [|now rewrite andb_false_r].
  rewrite andb_true_r. apply same_key_spec in Hx as [<- <-].
  destruct (same_key (doc_id r) (layer r) x) eqn:Hr; [|reflexivity].
  apply same_key_spec in Hr as [Hd Hl].
  assert (same_key (doc_id x) (layer x) r = true)
    by (apply same_key_spec; now split).
  congruence.
Qed.

Lemma replace_rows_split rs : forall cs,
  replace_rows rs cs =
    filter (fun x => negb (overwritten rs x)) cs ++ replace_rows rs [].
Proof.
  unfold replace_rows.
  induction rs as [|r rs IH]; intros cs; simpl.
  - rewrite app_nil_r. symmetry. apply filter_all.
    apply Forall_forall. reflexivity.
  - rewrite IH. rewrite (IH (replace_row [] r)).
    unfold replace_row at 1. rewrite filter_app, filter_twice.
    rewrite <- app_assoc. f_equal.
    apply filter_ext. intros x. now rewrite negb_orb.
Qed.

Lemma replace_rows_keys rs :
  Forall (fun x => overwritten rs x = true) (replace_rows rs []).
Proof.
  induction rs as [|r rs IH]; [constructor|].
  change (replace_rows (r :: rs) []) with (replace_rows rs (replace_row [] r)).
  rewrite replace_rows_split. apply Forall_app. split.
  - apply Forall_forall. intros x Hx. apply filter_In in Hx as [Hx _].
    destruct Hx as [<-|[]]. simpl.
    now rewrite (proj2 (same_key_spec (doc_id r) (layer r) r)).
  - eapply Forall_impl; [|exact IH]. simpl. intros x ->.
    apply orb_true_r.
Qed.

(** Replaying a sequence of replacements changes nothing. *)
Lemma replace_rows_idempotent rs cs :
  replace_rows rs (replace_rows rs cs) = replace_rows rs cs.
Proof.
  rewrite (replace_rows_split rs (replace_rows rs cs)).
  rewrite (replace_rows_split rs cs) at 1.
  rewrite filter_app, filter_twice.
  rewrite (filter_none _ (l := replace_rows rs [])).
  - rewrite app_nil_r. rewrite (replace_rows_split rs cs). f_equal.
    apply filter_ext. intros x. now rewrite andb_diag.
  - eapply Forall_impl; [|apply replace_rows_keys].
    simpl. now intros x ->.
Qed.

Lemma write_chunks_docs d text s1 s2 st :
  docs (write_chunks d text s1 s2 st) = docs st.
Proof. reflexivity. Qed.

Lemma write_chunks_rows d text s1 s2 st :
  chunks (write_chunks d text s1 s2 st) =
    replace_rows
      [mkChunk d "private" (PyStr.slice_to SNAPSHOT_LEN text) "" s1;
       mkChunk d "public" (PyStr.slice_to SNAPSHOT_LEN text) "" s2]
      (chunks st).
Proof. reflexivity. Qed.

End ChunkFacts.

(* ------------------------------------------------------------------ *)
(** ** The chunk store: [upsert_chunk] *)

(** C4: after [upsert_chunk(conn, d, layer, c, s)] the chunk table holds
    exactly one row for the pair [(d, layer)], whose content and summary
    are [c] and [s], however many rows for that pair there were before;
    rows of other pairs and the document table are left as they were. *)
Theorem upsert_chunk_leaves_exactly_one (d : Z) (l c s : string) (w : World) :
  exists w' row,
    Indexer.upsert_chunk d l c s w = (Ok tt, w')
    /\ filter (fun r => (doc_id r =? d)%Z && String.eqb (layer r) l)
              (chunks (conn w')) = [row]
    /\ doc_id row = d /\ layer row = l /\ content row = c /\ summary row = s
    /\ filter (fun r => negb ((doc_id r =? d)%Z && String.eqb (layer r) l))
              (chunks (conn w'))
       = filter (fun r => negb ((doc_id r =? d)%Z && String.eqb (layer r) l))
                (chunks (conn w))
    /\ docs (conn w') = docs (conn w).
Proof.
  eexists. exists (mkChunk d l c "" s).
  split; [reflexivity|]. cbn [conn].
  rewrite upsert_chunk_store_rows.
  split; [exact (replace_row_own (chunks (conn w)) (mkChunk d l c "" s))|].
  repeat (split; [reflexivity|]).
  split; [|reflexivity].
  unfold Indexer.replace_row. cbn [doc_id layer].
  rewrite filter_app, filter_twice. simpl.
  unfold Indexer.same_key. rewrite Z.eqb_refl, String.eqb_refl. simpl.
  rewrite app_nil_r. apply filter_ext. intros x. apply andb_diag.
Qed.

(* ------------------------------------------------------------------ *)
(** ** The document registry: [upsert_doc] *)

(** C7: [upsert_doc(conn, path)] always returns an id.  When a row with
    that path exists, the id is that of such a row, no row is added or
    removed, and the columns id, path, source and created_at are what
    they were; every row with the returned id, the row of the path among
    them, gets the current time as its updated_at and is otherwise its
    old self, and every other row is untouched.  When no row has the
    path, the id is not in use and one row
    [(id, path, "scratchpad", now, now)] is added at the end.  In both
    cases the chunk table is untouched, and asking again gives the same
    id without adding a row. *)
Theorem upsert_doc_idempotent_on_identity (E : Env) (p : Path) (w : World) :
  let now := env_clock E (ticks w) in
  let ds := docs (conn w) in
  exists d w',
    Indexer.upsert_doc E p w = (Ok d, w')
    /\ chunks (conn w') = chunks (conn w)
    /\ disk w' = disk w
    /\ ((exists r0, In r0 ds /\ path r0 = p) ->
        (exists r, In r ds /\ path r = p /\ d = id r)
        /\ List.length (docs (conn w')) = List.length ds
        /\ map id (docs (conn w')) = map id ds
        /\ map path (docs (conn w')) = map path ds
        /\ map source (docs (conn w')) = map source ds
        /\ map created_at (docs (conn w')) = map created_at ds
        /\ Forall2 (fun old new =>
                      (id old <> d /\ new = old)
                      \/ (id old = d /\
                          new = mkDoc (id old) (path old) (source old)
                                      (created_at old) now))
                   ds (docs (conn w'))
        /\ Forall (fun new => id new = d -> updated_at new = now)
                  (docs (conn w'))
        /\ (exists r', In r' (docs (conn w'))
                       /\ id r' = d /\ path r' = p /\ updated_at r' = now))
    /\ ((forall r, In r ds -> path r <> p) ->
        ~ In d (map id ds)
        /\ docs (conn w') = ds ++ [mkDoc d p "scratchpad" now now])
    /\ exists w'',
         Indexer.upsert_doc E p w' = (Ok d, w'')
         /\ List.length (docs (conn w'')) = List.length (docs (conn w')).
Proof.
  intros now ds.
  exists (fst (Indexer.registered E p w)).
  eexists. split; [apply upsert_doc_runs|]. cbn [conn disk].
  unfold Indexer.registered. fold now. fold ds.
  split; [apply upsert_doc_store_chunks|].
  split; [reflexivity|].
  split; [|split].
  - intros (r0 & Hin & Hp).
    destruct (Indexer.select_doc p ds) as [r|] eqn:Hsel.
    2:{ exfalso. exact (proj1 (select_doc_none p ds) Hsel r0 Hin Hp). }
    unfold ds in Hsel.
    rewrite (upsert_doc_store_known now p (conn w) Hsel). cbn [fst snd docs set_docs].
    destruct (touch_doc_columns now (id r) (docs (conn w))) as (C1 & C2 & C3 & C4).
    split; [exists r; repeat split;
            [exact (select_doc_in _ _ Hsel)|exact (select_doc_path _ _ Hsel)]|].
    split; [apply touch_doc_length|].
    repeat (split; [assumption|]).
    pose proof (select_doc_in _ _ Hsel) as Hr.
    pose proof (select_doc_path _ _ Hsel) as Hrp.
    unfold Indexer.touch_doc. fold ds. fold ds in Hr. split; [|split].
    + clear. induction ds as [|x xs IH]; simpl; constructor; [|exact IH].
      destruct (id x =? id r)%Z eqn:Hx; [right|left].
      * apply Z.eqb_eq in Hx. now split.
      * apply Z.eqb_neq in Hx. now split.
    + apply Forall_forall. intros new Hnew Hid.
      apply in_map_iff in Hnew as (x & Hx & _).
      destruct (id x =? id r)%Z eqn:Hxr; subst new; [reflexivity|].
      apply Z.eqb_neq in Hxr. contradiction.
    + exists (mkDoc (id r) (path r) (source r) (created_at r) now).
      split; [|now repeat split].
      apply in_map_iff. exists r. split; [|exact Hr].
      now rewrite Z.eqb_refl.
  - intros Hnone. apply select_doc_none in Hnone. unfold ds in Hnone.
    rewrite (upsert_doc_store_new now p (conn w) Hnone). cbn [fst snd docs set_docs].
    split; [apply next_rowid_fresh|reflexivity].
  - eexists. split.
    + rewrite upsert_doc_runs. unfold Indexer.registered. cbn [conn ticks].
      f_equal. f_equal.
      destruct (upsert_doc_store_selects now p (conn w)) as (r & Hr & <-).
      now rewrite (upsert_doc_store_known _ p _ Hr).
    + cbn [conn]. unfold Indexer.registered. cbn [conn ticks].
      destruct (upsert_doc_store_selects now p (conn w)) as (r & Hr & _).
      rewrite (upsert_doc_store_known _ p _ Hr). cbn [snd docs set_docs].
      apply touch_doc_length.
Qed.

(** On the sample store: the known path keeps id 1 and its creation
    time and has its update time set to the clock's, a new path gets
    id 2 and one more row. *)
Lemma upsert_doc_idempotent_on_identity_witness :
  (exists w', Indexer.upsert_doc Sample.notes_only Sample.notes
                (mkWorld Sample.small_store Sample.small_store [] 0 [])
              = (Ok 1%Z, w')
              /\ map id (docs (conn w')) = [1%Z]
              /\ map created_at (docs (conn w')) = ["t0"]
              /\ Forall (fun new => id new = 1%Z ->
                                    updated_at new = Sample.clock 0)
                        (docs (conn w')))
  /\ (exists w', Indexer.upsert_doc Sample.notes_only Sample.locked
                   (mkWorld Sample.small_store Sample.small_store [] 0 [])
                 = (Ok 2%Z, w')
                 /\ List.length (docs (conn w')) = 2%nat).
Proof.
  split.
  - destruct (upsert_doc_idempotent_on_identity Sample.notes_only Sample.notes
                (mkWorld Sample.small_store Sample.small_store [] 0 []))
      as (d & w' & Hrun & _ & _ & Hknown & _).
    destruct Hknown as (_ & _ & Hid & _ & _ & Hc & _ & Hu & _).
    { eexists. split; [left; reflexivity|reflexivity]. }
    assert (d = 1%Z) as Hd by (vm_compute in Hrun; now inversion Hrun).
    exists w'. split; [|split; [exact Hid|split; [exact Hc|]]].
    + rewrite Hrun. now rewrite Hd.
    + rewrite Hd in Hu. exact Hu.
  - destruct (upsert_doc_idempotent_on_identity Sample.notes_only Sample.locked
                (mkWorld Sample.small_store Sample.small_store [] 0 []))
      as (d & w' & Hrun & _ & _ & _ & Hnew & _).
    destruct Hnew as (_ & Hdocs).
    { intros r [<-|[]]. vm_compute. discriminate. }
    exists w'. split; [|rewrite Hdocs; reflexivity].
    rewrite Hrun. f_equal. f_equal.
    vm_compute in Hrun. now inversion Hrun.
Defined.

(* ------------------------------------------------------------------ *)
(** ** The batch: [main] as one loop over the candidates *)

Section MainLoop.
Import Indexer.
Variable E : Env.

Lemma dirs_loop dirs w :
  for_each dirs (index_base E) w =
    for_each (candidates E dirs) (index_path E) w.
Proof.
  revert w. induction dirs as [|base dirs IH]; intros w; [reflexivity|].
  cbn [for_each candidates flat_map]. rewrite for_each_app.
  unfold bind, index_base.
  destruct (fs_exists (env_fs E) base); cbn [negb].
  - destruct (for_each (fs_rglob (env_fs E) base) (index_path E) w)
      as [[[]|e] w1]; [apply IH|reflexivity].
  - apply IH.
Qed.

Lemma main_unfolds w :
  main E w =
    for_each (candidates E TARGET_DIRS) (index_path E) (opened w).
Proof.
  unfold main, main_over, bind, ensure_db. fold (opened w). apply dirs_loop.
Qed.

End MainLoop.

(* ------------------------------------------------------------------ *)
(** ** Failures during a batch *)

(** C5 (as the code has it): when reading a candidate file raises, for
    example on a permission error, [main] ends with that error at that
    file: the database, the backend calls and the output are what the
    candidates before it left, and no later candidate is looked at. *)
Theorem read_failure_aborts_batch
        (E : Env) (w w1 : World) (pre post : list Path) (p : Path) (e : PyExc) :
  Indexer.candidates E Indexer.TARGET_DIRS = pre ++ p :: post ->
  for_each pre (Indexer.index_path E) (Indexer.opened w) = (Ok tt, w1) ->
  Indexer.should_index (env_fs E) p = true ->
  fs_read_text (env_fs E) p = Raise e ->
  Indexer.main E w = (Raise e, w1).
Proof.
  intros Hc Hpre Hidx Hread.
  rewrite main_unfolds, Hc. erewrite for_each_ok_then by exact Hpre.
  apply for_each_cons_raise. now apply index_path_unreadable.
Qed.

(** An unreadable file between two readable ones: the run ends with
    the permission error where the first file left it. *)
Lemma read_failure_aborts_batch_witness :
  Indexer.main (Sample.env [Sample.notes; Sample.locked; Sample.notes] Sample.steady)
               Sample.fresh_world
  = (Raise Sample.permission_denied,
     snd (Indexer.main (Sample.env [Sample.notes] Sample.steady)
                       Sample.fresh_world)).
Proof.
  apply (@read_failure_aborts_batch
           (Sample.env [Sample.notes; Sample.locked; Sample.notes] Sample.steady)
           Sample.fresh_world _ [Sample.notes] [Sample.notes] Sample.locked
           Sample.permission_denied);
    vm_compute; reflexivity.
Defined.

(** C5, the claim as written fails: with an unreadable [locked.md]
    walked before a readable [notes.md], the run ends with the
    permission error and [notes.md] is never indexed. *)
Lemma read_failure_is_not_skipped :
  Indexer.candidates Sample.locked_first Indexer.TARGET_DIRS
  = [Sample.locked; Sample.notes]
  /\ Indexer.should_index (env_fs Sample.locked_first) Sample.locked = true
  /\ fs_read_text (env_fs Sample.locked_first) Sample.locked
     = Raise Sample.permission_denied
  /\ Indexer.should_index (env_fs Sample.locked_first) Sample.notes = true
  /\ fs_read_text (env_fs Sample.locked_first) Sample.notes
     = Ok Sample.notes_text
  /\ fst (Indexer.main Sample.locked_first Sample.fresh_world)
     = Raise Sample.permission_denied
  /\ fst (Indexer.main Sample.locked_first Sample.fresh_world) <> Ok tt
  /\ indexed (snd (Indexer.main Sample.locked_first Sample.fresh_world)) = []
  /\ Indexer.database_after
       (Indexer.main Sample.locked_first Sample.fresh_world) = empty_store.
Proof.
  vm_compute. repeat split; discriminate.
Qed.

(** C6: a non-success status from the backend makes [ollama_generate]
    raise an error whose text is the backend's stripped standard error
    (a fixed text when that is blank) after a single call, and the batch
    ends there: whichever of the two summaries of a document fails, [main]
    ends with that error, the database is what the candidates before it
    left, the document is not reported as indexed, the only calls made
    for it are the ones up to the failing one, and no later candidate is
    looked at. *)
Theorem backend_failure_aborts_batch
        (E : Env) (w w1 : World) (pre post : list Path) (p : Path)
        (text : string) :
  Indexer.candidates E Indexer.TARGET_DIRS = pre ++ p :: post ->
  for_each pre (Indexer.index_path E) (Indexer.opened w) = (Ok tt, w1) ->
  Indexer.should_index (env_fs E) p = true ->
  fs_read_text (env_fs E) p = Ok text ->
  let c1 := Adapter.private_call text in
  let c2 := Adapter.public_call text in
  let pr1 := env_run E (calls w1) c1 in
  let pr2 := env_run E (calls w1 ++ [c1]) c2 in
  (returncode pr1 <> 0%Z ->
   exists w', Indexer.main E w = (Raise (Adapter.backend_error pr1), w')
              /\ disk w' = disk w1 /\ indexed w' = indexed w1
              /\ calls w' = calls w1 ++ [c1])
  /\ (returncode pr1 = 0%Z -> returncode pr2 <> 0%Z ->
      exists w', Indexer.main E w = (Raise (Adapter.backend_error pr2), w')
                 /\ disk w' = disk w1 /\ indexed w' = indexed w1
                 /\ calls w' = calls w1 ++ [c1; c2])
  /\ (forall prompt w0,
        let c := mkCall (Adapter.ollama_cmd Adapter.DEFAULT_MODEL) prompt in
        let proc := env_run E (calls w0) c in
        returncode proc <> 0%Z ->
        exists w', Adapter.ollama_generate E prompt w0
                   = (Raise (Adapter.backend_error proc), w')
                   /\ calls w' = calls w0 ++ [c]
                   /\ conn w' = conn w0 /\ disk w' = disk w0)
  /\ (forall proc,
        PyStr.is_empty (PyStr.strip (stderr proc)) = false ->
        Adapter.backend_error proc = RuntimeError (PyStr.strip (stderr proc))).
Proof.
  intros Hc Hpre Hidx Hread c1 c2 pr1 pr2.
  split; [|split; [|split]].
  - intros H1. apply Z.eqb_neq in H1.
    eexists. split.
    { rewrite main_unfolds, Hc. erewrite for_each_ok_then by exact Hpre.
      apply for_each_cons_raise.
      now apply index_path_private_fails. }
    cbn. repeat split.
  - intros H1 H2. apply Z.eqb_eq in H1. apply Z.eqb_neq in H2.
    eexists. split.
    { rewrite main_unfolds, Hc. erewrite for_each_ok_then by exact Hpre.
      apply for_each_cons_raise.
      now apply index_path_public_fails. }
    cbn. repeat split.
  - intros prompt w0 c proc H. apply Z.eqb_neq in H.
    eexists. split; [now apply ollama_generate_fails|].
    cbn. repeat split.
  - intros proc H. unfold Adapter.backend_error. now rewrite H.
Qed.

(** A backend that is down at the first call, and one that stops
    after the first answer. *)
Lemma backend_failure_aborts_batch_witness :
  (exists w', Indexer.main (Sample.env [Sample.notes; Sample.notes] Sample.down)
                           Sample.fresh_world
              = (Raise (RuntimeError
                          "Error: could not connect to ollama app, is it running?"),
                 w')
              /\ disk w' = empty_store /\ indexed w' = []
              /\ calls w' = [Adapter.private_call Sample.notes_text])
  /\ (exists w', Indexer.main (Sample.env [Sample.notes; Sample.notes] Sample.stops)
                              Sample.fresh_world
                 = (Raise (RuntimeError
                             "Error: could not connect to ollama app, is it running?"),
                    w')
                 /\ disk w' = empty_store /\ indexed w' = []
                 /\ calls w' = [Adapter.private_call Sample.notes_text;
                                Adapter.public_call Sample.notes_text]).
Proof.
  split.
  - refine (proj1 (@backend_failure_aborts_batch
                     (Sample.env [Sample.notes; Sample.notes] Sample.down)
                     Sample.fresh_world Sample.fresh_world [] [Sample.notes]
                     Sample.notes Sample.notes_text _ _ _ _) _);
      vm_compute; (reflexivity || discriminate).
  - refine (proj1 (proj2 (@backend_failure_aborts_batch
                     (Sample.env [Sample.notes; Sample.notes] Sample.stops)
                     Sample.fresh_world Sample.fresh_world [] [Sample.notes]
                     Sample.notes Sample.notes_text _ _ _ _)) _ _);
      vm_compute; (reflexivity || discriminate).
Defined.

(* ------------------------------------------------------------------ *)
(** ** Invariants of the batch loop *)

Section StepView.
Import Indexer.

Lemma index_path_step E p w : Step E p w (index_path E p w).
Proof.
  destruct (should_index (env_fs E) p) eqn:Hidx.
  2:{ rewrite index_path_skip by assumption. now constructor. }
  destruct (fs_read_text (env_fs E) p) as [text|e] eqn:Hread.
  2:{ erewrite index_path_unreadable by eassumption. now constructor. }
  destruct (returncode (env_run E (calls w) (Adapter.private_call text)) =? 0)%Z
    eqn:H1.
  2:{ erewrite index_path_private_fails by eassumption.
      now apply step_private_fails. }
  destruct (returncode (env_run E (calls w ++ [Adapter.private_call text])
                                (Adapter.public_call text)) =? 0)%Z eqn:H2.
  2:{ erewrite index_path_public_fails by eassumption.
      now apply step_public_fails. }
  erewrite index_path_indexes by eassumption.
  now eapply step_indexed.
Qed.

(** A property [I] kept at the head of the loop, and a property [J]
    it implies that also survives the step that raises. *)
Lemma for_each_invariant {A} (body : A -> M unit) (I J : World -> Prop) :
  (forall w, I w -> J w) ->
  (forall x w w', I w -> body x w = (Ok tt, w') -> I w') ->
  (forall x w e w', I w -> body x w = (Raise e, w') -> J w') ->
  forall xs w, I w -> J (snd (for_each xs body w)).
Proof.
  intros HIJ Hok Hraise xs.
  induction xs as [|x xs IH]; intros w Hw; simpl; [now apply HIJ|].
  unfold bind. destruct (body x w) as [[[]|e] w1] eqn:Hx.
  - apply IH. eapply Hok; eassumption.
  - simpl. eapply Hraise; eassumption.
Qed.

(** The same for [index_path], one case per way the step can go.  At
    the head of the loop the connection has nothing uncommitted. *)
Lemma batch_invariant (E : Env) (I J : World -> Prop) :
  (forall w, I w -> J w) ->
  (forall p w r, I w -> conn w = disk w -> Step E p w r ->
                 match fst r with
                 | Ok _ => I (snd r)
                 | Raise _ => J (snd r)
                 end) ->
  forall files w, I w -> conn w = disk w ->
                  J (snd (for_each files (index_path E) w)).
Proof.
  intros HIJ Hstep files w Hw Hc.
  apply (for_each_invariant (index_path E)
           (fun w => I w /\ conn w = disk w) J);
    [intros w0 [HI _]; now apply HIJ| | |now split].
  - intros p w0 w' [HI Hcd] Heq.
    pose proof (index_path_step E p w0) as S. rewrite Heq in S.
    split; [exact (Hstep p w0 _ HI Hcd S)|].
    inversion S; subst; [assumption|reflexivity].
  - intros p w0 e w' [HI Hcd] Heq.
    pose proof (index_path_step E p w0) as S. rewrite Heq in S.
    exact (Hstep p w0 _ HI Hcd S).
Qed.

End StepView.

Section BatchInvariants.
Import Indexer.
Variable E : Env.

Lemma should_index_not_excluded p :
  should_index (env_fs E) p = true -> under_exclude p = false.
Proof.
  unfold should_index. destruct (fs_is_dir (env_fs E) p); [discriminate|].
  destruct (allowed_suffix p); [|discriminate]. cbn [negb].
  now destruct (under_exclude p).
Qed.

Lemma indexable_text_of p text :
  should_index (env_fs E) p = true ->
  fs_read_text (env_fs E) p = Ok text ->
  indexable_text E text.
Proof.
  intros H R. exists p. repeat split; auto using should_index_not_excluded.
Qed.

Lemma registered_chunks p w :
  chunks (snd (registered E p w)) = chunks (conn w).
Proof. apply upsert_doc_store_chunks. Qed.

Lemma registered_docs_in p w d :
  In d (docs (snd (registered E p w))) ->
  (exists d0, In d0 (docs (conn w)) /\ id d0 = id d /\ path d0 = path d)
  \/ (path d = p /\ id d = fst (registered E p w)).
Proof.
  unfold registered, upsert_doc_store.
  destruct (select_doc p (docs (conn w))) as [r|]; cbn [fst snd docs set_docs].
  - unfold touch_doc. rewrite in_map_iff. intros (d0 & <- & Hin).
    left. exists d0. destruct (id d0 =? id r)%Z; auto.
  - rewrite in_app_iff. intros [H|[<-|[]]]; [left; eauto|right; auto].
Qed.

Lemma registered_has_row p w :
  exists d, In d (docs (snd (registered E p w)))
            /\ id d = fst (registered E p w) /\ path d = p.
Proof.
  destruct (upsert_doc_store_selects (env_clock E (ticks w)) p (conn w))
    as (r & Hr & Hid).
  exists r. repeat split;
    [exact (select_doc_in _ _ Hr)|exact Hid|exact (select_doc_path _ _ Hr)].
Qed.

Lemma registered_keeps_ids p w d0 :
  In d0 (docs (conn w)) ->
  exists d, In d (docs (snd (registered E p w))) /\ id d = id d0.
Proof.
  unfold registered, upsert_doc_store. intros Hin.
  destruct (select_doc p (docs (conn w))) as [r|]; cbn [fst snd docs set_docs].
  - eexists. split; [unfold touch_doc; apply in_map; exact Hin|].
    now destruct (id d0 =? id r)%Z.
  - exists d0. split; [apply in_or_app; now left|reflexivity].
Qed.

Lemma write_chunks_in d text s1 s2 st x :
  In x (chunks (write_chunks d text s1 s2 st)) ->
  (In x (chunks st) /\ (doc_id x <> d \/ (layer x <> "private" /\ layer x <> "public")))
  \/ x = mkChunk d "private" (PyStr.slice_to SNAPSHOT_LEN text) "" s1
  \/ x = mkChunk d "public" (PyStr.slice_to SNAPSHOT_LEN text) "" s2.
Proof.
  unfold write_chunks, upsert_chunk_store, set_chunks. cbn [chunks docs].
  rewrite in_app_iff, filter_In, in_app_iff, filter_In. cbn [In].
  intros [[[[Hin Hk1]|[<-|[]]] Hk2]|[<-|[]]]; auto.
  left. split; [assumption|].
  destruct (Z.eq_dec (doc_id x) d) as [Hd|]; [right|now left].
  unfold same_key in Hk1, Hk2. apply Z.eqb_eq in Hd.
  rewrite Hd in Hk1, Hk2. cbn [andb] in Hk1, Hk2.
  apply negb_true_iff, String.eqb_neq in Hk1.
  apply negb_true_iff, String.eqb_neq in Hk2. now split.
Qed.

(** Every call a batch makes carries the text of an indexable file. *)
Lemma batch_calls files w :
  conn w = disk w ->
  exists new,
    calls (snd (for_each files (index_path E) w)) = calls w ++ new
    /\ Forall (prompt_of E) new.
Proof.
  intros Hc.
  apply (@batch_invariant E
           (fun w' => exists new, calls w' = calls w ++ new
                                  /\ Forall (prompt_of E) new)
           (fun w' => exists new, calls w' = calls w ++ new
                                  /\ Forall (prompt_of E) new));
    [auto| |exists []; now rewrite app_nil_r|exact Hc].
  intros p w0 r (new & Heq & Hall) _ S.
  assert (forall text, should_index (env_fs E) p = true ->
                       fs_read_text (env_fs E) p = Ok text ->
                       prompt_of E (Adapter.private_call text)
                       /\ prompt_of E (Adapter.public_call text)) as P.
  { intros text H R. split; exists text;
      (split; [now apply (indexable_text_of p)|auto]). }
  destruct S as [ | | text Hi Hr | text Hi Hr | text st' Hi Hr];
    cbn [fst snd calls]; destruct (P text Hi Hr) as [P1 P2] || idtac.
  - eauto.
  - eauto.
  - exists (new ++ [Adapter.private_call text]).
    rewrite Heq, app_assoc. split; [reflexivity|].
    apply Forall_app. split; [assumption|]. now constructor.
  - exists (new ++ [Adapter.private_call text; Adapter.public_call text]).
    rewrite Heq, app_assoc. split; [reflexivity|].
    apply Forall_app. split; [assumption|]. now repeat constructor.
  - exists (new ++ [Adapter.private_call text; Adapter.public_call text]).
    rewrite Heq, app_assoc. split; [reflexivity|].
    apply Forall_app. split; [assumption|]. now repeat constructor.
Qed.

End BatchInvariants.

Section BatchStores.
Import Indexer.
Variable E : Env.

(** A chunk row a batch leaves is one it found or one it wrote from
    the text of an indexable file. *)
Lemma batch_chunks files w :
  conn w = disk w ->
  Forall (fun c => In c (chunks (disk w)) \/ snapshot_of E c)
         (chunks (disk (snd (for_each files (index_path E) w)))).
Proof.
  intros Hc.
  set (I := fun w' : World =>
              Forall (fun c => In c (chunks (disk w)) \/ snapshot_of E c)
                     (chunks (disk w'))).
  apply (@batch_invariant E I I);
    [auto| |apply Forall_forall; now left|exact Hc].
  intros p w0 r HI Hcd S.
  destruct S as [ | | text Hi Hr | text Hi Hr | text st' Hi Hr _ _ -> ];
    cbn [fst snd disk]; try exact HI.
  unfold I in *. cbn [disk]. rewrite Forall_forall in *. intros x Hx.
  apply write_chunks_in in Hx. rewrite registered_chunks, Hcd in Hx.
  pose proof (indexable_text_of E p Hi Hr) as T.
  destruct Hx as [[Hx _]|[ -> | -> ]]; [now apply HI| |];
    right; exists text; cbn [content layer]; auto.
Qed.

(** A document row a batch leaves has the id and path of one it found,
    or the path of a file [should_index] lets through. *)
Lemma batch_docs files w :
  conn w = disk w ->
  Forall (fun d =>
            (exists d0, In d0 (docs (disk w))
                        /\ id d0 = id d /\ path d0 = path d)
            \/ should_index (env_fs E) (path d) = true)
         (docs (disk (snd (for_each files (index_path E) w)))).
Proof.
  intros Hc.
  set (I := fun w' : World =>
              Forall (fun d =>
                        (exists d0, In d0 (docs (disk w))
                                    /\ id d0 = id d /\ path d0 = path d)
                        \/ should_index (env_fs E) (path d) = true)
                     (docs (disk w'))).
  apply (@batch_invariant E I I);
    [auto| |apply Forall_forall; intros d Hd; left; eauto|exact Hc].
  intros p w0 r HI Hcd S.
  destruct S as [ | | text Hi Hr | text Hi Hr | text st' Hi Hr _ _ -> ];
    cbn [fst snd disk]; try exact HI.
  unfold I in *. cbn [disk]. rewrite write_chunks_docs.
  rewrite Forall_forall in *. intros x Hx.
  apply registered_docs_in in Hx. rewrite Hcd in Hx.
  destruct Hx as [(d0 & Hin & Hid & Hp)|[Hp _]].
  - destruct (HI d0 Hin) as [(d1 & H1 & H2 & H3)|H].
    + left. exists d1. repeat split; congruence.
    + right. congruence.
  - right. congruence.
Qed.

(** A path the database resolves before a batch resolves to the same
    id after it. *)
Lemma batch_resolves files w :
  conn w = disk w ->
  resolves_like (docs (disk w))
                (docs (disk (snd (for_each files (index_path E) w)))).
Proof.
  intros Hc.
  set (I := fun w' : World => resolves_like (docs (disk w)) (docs (disk w'))).
  apply (@batch_invariant E I I);
    [auto| |apply resolves_like_refl|exact Hc].
  intros p w0 r HI Hcd S.
  destruct S as [ | | text Hi Hr | text Hi Hr | text st' Hi Hr _ _ -> ];
    cbn [fst snd disk]; try exact HI.
  unfold I in *. cbn [disk]. rewrite write_chunks_docs.
  eapply resolves_like_trans; [exact HI|].
  rewrite <- Hcd. apply upsert_doc_store_resolves.
Qed.

(** A batch keeps a sound database sound. *)
Lemma batch_sound files w :
  conn w = disk w -> sound (disk w) ->
  sound (disk (snd (for_each files (index_path E) w))).
Proof.
  intros Hc Hs.
  apply (@batch_invariant E (fun w' => sound (disk w'))
                          (fun w' => sound (disk w')));
    [auto| |exact Hs|exact Hc].
  intros p w0 r HI Hcd S.
  destruct S as [ | | text Hi Hr | text Hi Hr | text st' Hi Hr _ _ -> ];
    cbn [fst snd disk]; try exact HI.
  destruct HI as (Hd & Hk & Hl & Hsame). rewrite <- Hcd in Hd, Hk, Hl, Hsame.
  unfold sound. rewrite write_chunks_docs. repeat split.
  - apply Forall_forall. intros d Hin.
    apply registered_docs_in in Hin as [(d0 & Hin & _ & <-)|[ -> _]].
    + exact (proj1 (Forall_forall _ _) Hd d0 Hin).
    + now apply (should_index_not_excluded E).
  - apply Forall_forall. intros x Hx.
    apply write_chunks_in in Hx. rewrite registered_chunks in Hx.
    destruct Hx as [[Hx _]|[ -> | -> ]].
    + destruct (proj1 (Forall_forall _ _) Hk x Hx) as (d0 & Hin & <-).
      now apply registered_keeps_ids.
    + destruct (registered_has_row E p w0) as (d & Hin & Hid & _). eauto.
    + destruct (registered_has_row E p w0) as (d & Hin & Hid & _). eauto.
  - apply Forall_forall. intros x Hx.
    apply write_chunks_in in Hx. rewrite registered_chunks in Hx.
    destruct Hx as [[Hx _]|[ -> | -> ]]; cbn [layer]; auto.
    exact (proj1 (Forall_forall _ _) Hl x Hx).
  - intros c1 c2 H1 H2 Heq.
    apply write_chunks_in in H1, H2. rewrite registered_chunks in H1, H2.
    rewrite Forall_forall in Hl.
    destruct H1 as [[H1 N1]|[ -> | -> ]], H2 as [[H2 N2]|[ -> | -> ]];
      cbn [doc_id layer content] in *; try reflexivity;
      try (now apply Hsame).
    all: exfalso.
    all: try (destruct N1 as [N1|[N1 N1']]; [congruence|];
              destruct (Hl c1 H1); contradiction).
    all: try (destruct N2 as [N2|[N2 N2']]; [congruence|];
              destruct (Hl c2 H2); contradiction).
Qed.

Lemma blank_sound : sound (disk blank).
Proof. repeat split; try constructor. intros c1 c2 []. Qed.

End BatchStores.

(* ------------------------------------------------------------------ *)
(** ** The exclusion set *)

Section Exclusion.
Import Indexer.

Lemma for_each_ext {A} (f g : A -> M unit) :
  (forall x w, f x w = g x w) ->
  forall xs w, for_each xs f w = for_each xs g w.
Proof.
  intros H xs. induction xs as [|x xs IH]; intros w; simpl; [reflexivity|].
  unfold bind. rewrite H. destruct (g x w) as [[[]|e] w1]; auto.
Qed.

Lemma index_path_hide_excluded E p w :
  index_path (hide_excluded E) p w = index_path E p w.
Proof.
  unfold index_path.
  change (should_index (env_fs (hide_excluded E)) p)
    with (should_index (env_fs E) p).
  destruct (should_index (env_fs E) p) eqn:H; [|reflexivity].
  apply should_index_not_excluded in H. cbn [negb].
  unfold bind at 1 3, lift_result. cbn [hide_excluded env_fs fs_read_text].
  rewrite H. reflexivity.
Qed.

Lemma main_hide_excluded E w : main (hide_excluded E) w = main E w.
Proof.
  rewrite !main_unfolds.
  change (candidates (hide_excluded E) TARGET_DIRS)
    with (candidates E TARGET_DIRS).
  apply for_each_ext. apply index_path_hide_excluded.
Qed.

Lemma main_sound E w : sound (disk w) -> sound (disk (snd (main E w))).
Proof. intros H. rewrite main_unfolds. now apply batch_sound. Qed.

Lemma after_runs_sound Es : forall w,
  sound (disk w) -> sound (disk (after_runs Es w)).
Proof.
  induction Es as [|E Es IH]; intros w H; simpl; [exact H|].
  apply IH. now apply main_sound.
Qed.

End Exclusion.

(** C3: a path under an exclusion prefix is turned down by
    [should_index] whatever its extension, and the loop body does
    nothing at all for it: no read, no backend call, no row.  For a whole
    batch, from any database: making the excluded files unreadable
    changes nothing of the run; every backend call carries the text of a
    file that is not excluded; a document row left by the run has the id
    and path of a row that was there before or a path that is not
    excluded; a chunk row left by the run was there before or holds the
    text of a file that is not excluded.  In every database reached by
    batch runs from the empty one, no document row has an excluded path
    and every chunk row belongs to a document row. *)
Theorem excluded_files_never_indexed
        (E : Env) (w : World) (Es : list Env) (p : Path) :
  Indexer.under_exclude p = true ->
  Indexer.should_index (env_fs E) p = false
  /\ Indexer.index_path E p w = (Ok tt, w)
  /\ Indexer.main (Indexer.hide_excluded E) w = Indexer.main E w
  /\ (exists new,
        calls (snd (Indexer.main E w)) = calls w ++ new
        /\ Forall (fun c =>
                     exists q text,
                       Indexer.under_exclude q = false
                       /\ q <> p
                       /\ fs_read_text (env_fs E) q = Ok text
                       /\ (c = Adapter.private_call text
                           \/ c = Adapter.public_call text)) new)
  /\ Forall (fun d =>
               (exists d0, In d0 (docs (disk w))
                           /\ id d0 = id d /\ path d0 = path d)
               \/ path d <> p)
            (docs (Indexer.database_after (Indexer.main E w)))
  /\ Forall (fun c => In c (chunks (disk w)) \/ Indexer.snapshot_of E c)
            (chunks (Indexer.database_after (Indexer.main E w)))
  /\ Forall (fun d => Indexer.under_exclude (path d) = false)
            (docs (disk (Indexer.after_runs Es Indexer.blank)))
  /\ Forall (fun c =>
               exists d, In d (docs (disk (Indexer.after_runs Es Indexer.blank)))
                         /\ id d = doc_id c
                         /\ Indexer.under_exclude (path d) = false)
            (chunks (disk (Indexer.after_runs Es Indexer.blank))).
Proof.
  intros Hex.
  assert (Indexer.should_index (env_fs E) p = false) as Hno.
  { destruct (Indexer.should_index (env_fs E) p) eqn:H; [|reflexivity].
    apply should_index_not_excluded in H. congruence. }
  split; [exact Hno|].
  split; [now apply index_path_skip|].
  split; [apply main_hide_excluded|].
  unfold Indexer.database_after. rewrite main_unfolds.
  split; [|split; [|split]].
  - destruct (batch_calls E (Indexer.candidates E Indexer.TARGET_DIRS)
                          (Indexer.opened w) eq_refl) as (new & Heq & Hall).
    exists new. split; [exact Heq|].
    eapply Forall_impl; [|exact Hall].
    intros c (text & (q & Hq & Hx & Hr) & Hc). exists q, text.
    repeat split; auto. congruence.
  - eapply Forall_impl;
      [|exact (batch_docs E (Indexer.candidates E Indexer.TARGET_DIRS)
                          (Indexer.opened w) eq_refl)].
    intros d [H|H]; [now left|right].
    apply should_index_not_excluded in H. congruence.
  - exact (batch_chunks E (Indexer.candidates E Indexer.TARGET_DIRS)
                        (Indexer.opened w) eq_refl).
  - destruct (after_runs_sound Es Indexer.blank blank_sound)
      as (Hd & Hk & _ & _).
    split; [exact Hd|].
    rewrite Forall_forall in *. intros c Hc.
    destruct (Hk c Hc) as (d & Hin & Hid). exists d. auto.
Qed.

(** A diary under [06_Private] walked next to an ordinary note. *)
Lemma excluded_files_never_indexed_witness :
  Indexer.should_index (env_fs Sample.with_diary) Sample.diary = false
  /\ Indexer.main (Indexer.hide_excluded Sample.with_diary) Indexer.blank
     = Indexer.main Sample.with_diary Indexer.blank.
Proof.
  pose proof (@excluded_files_never_indexed
                Sample.with_diary Indexer.blank [Sample.with_diary]
                Sample.diary eq_refl) as H.
  split; [exact (proj1 H)|exact (proj1 (proj2 (proj2 H)))].
Defined.

(* ------------------------------------------------------------------ *)
(** ** Truncation: the snapshot and the prompt *)

(** C8: in a batch run from any database, every backend call carries
    one of the two instructions followed by at most 6000 characters of
    the document, and every chunk row left by the run that was not there
    before holds a content snapshot of at most 10000 characters.  The
    two slices have the length of the document capped at 10000 and at
    6000, so a document of 20000 characters gives a snapshot of exactly
    10000 characters and a submitted text of exactly 6000. *)
Theorem snapshot_and_prompt_bounded (E : Env) (w : World) :
  (exists new,
     calls (snd (Indexer.main E w)) = calls w ++ new
     /\ Forall (fun c =>
                  exists instruction body : string,
                    call_input c = (instruction ++ body)%string
                    /\ (instruction = Adapter.private_instruction
                        \/ instruction = Adapter.public_instruction)
                    /\ (String.length body <= 6000)%nat) new)
  /\ Forall (fun c => In c (chunks (disk w))
                      \/ (String.length (content c) <= 10000)%nat)
            (chunks (Indexer.database_after (Indexer.main E w)))
  /\ (forall text,
        String.length (PyStr.slice_to Indexer.SNAPSHOT_LEN text)
        = Nat.min (String.length text) 10000
        /\ String.length (PyStr.slice_to Adapter.PROMPT_BUDGET text)
           = Nat.min (String.length text) 6000)
  /\ (forall text,
        String.length text = 20000%nat ->
        String.length (PyStr.slice_to Indexer.SNAPSHOT_LEN text) = 10000%nat
        /\ String.length (PyStr.slice_to Adapter.PROMPT_BUDGET text) = 6000%nat).
Proof.
  unfold Indexer.database_after. rewrite main_unfolds.
  split; [|split; [|split]].
  - destruct (batch_calls E (Indexer.candidates E Indexer.TARGET_DIRS)
                          (Indexer.opened w) eq_refl) as (new & Heq & Hall).
    exists new. split; [exact Heq|].
    eapply Forall_impl; [|exact Hall].
    intros c (text & _ & [->| ->]).
    + exists Adapter.private_instruction,
             (PyStr.slice_to Adapter.PROMPT_BUDGET text).
      repeat split; auto. apply slice_to_bounded.
    + exists Adapter.public_instruction,
             (PyStr.slice_to Adapter.PROMPT_BUDGET text).
      repeat split; auto. apply slice_to_bounded.
  - eapply Forall_impl;
      [|exact (batch_chunks E (Indexer.candidates E Indexer.TARGET_DIRS)
                            (Indexer.opened w) eq_refl)].
    intros c [H|(text & _ & -> & _)]; [now left|right].
    apply slice_to_bounded.
  - intros text. split; apply slice_to_length.
  - intros text H. rewrite !slice_to_length, H. split; reflexivity.
Qed.

(** The sample document of 20000 characters. *)
Lemma snapshot_and_prompt_bounded_witness :
  String.length (PyStr.slice_to Indexer.SNAPSHOT_LEN Sample.long_text)
  = 10000%nat
  /\ String.length (PyStr.slice_to Adapter.PROMPT_BUDGET Sample.long_text)
     = 6000%nat.
Proof.
  apply (proj2 (proj2 (proj2
           (snapshot_and_prompt_bounded Sample.long_file Indexer.blank)))).
  apply repeat_char_length.
Defined.

(** The 20000-character document run through the batch: what is stored
    and what is submitted. *)
Example long_document_is_cut :
  map (fun c => String.length (content c))
      (chunks (Indexer.database_after
                 (Indexer.main Sample.long_file Indexer.blank)))
  = [10000; 10000]%nat
  /\ map (fun c => String.length (call_input c))
         (calls (snd (Indexer.main Sample.long_file Indexer.blank)))
     = [String.length Adapter.private_instruction + 6000;
        String.length Adapter.public_instruction + 6000]%nat.
Proof. vm_compute. split; reflexivity. Qed.

(* ------------------------------------------------------------------ *)
(** ** Both layers keep the raw text *)

(** C10: when the loop body indexes a path, the private-layer and the
    public-layer chunk of its document are each the only row of their
    key and hold the same content, the first 10000 characters of the
    text as read from the file; only the summaries, the stripped
    outputs of the two backend calls, differ.  In a batch run a chunk row
    that was not there before holds such a slice of a file's text, and in
    every database reached by batch runs from the empty one the chunk
    rows of one document hold the same content. *)
Theorem both_layers_keep_raw_snapshot
        (E : Env) (p : Path) (w w' : World) (Es : list Env) :
  Indexer.should_index (env_fs E) p = true ->
  Indexer.index_path E p w = (Ok tt, w') ->
  (exists text d,
     fs_read_text (env_fs E) p = Ok text
     /\ (exists r, In r (docs (disk w')) /\ id r = d /\ path r = p)
     /\ filter (Indexer.same_key d "private") (chunks (disk w'))
        = [mkChunk d "private" (PyStr.slice_to 10000 text) ""
             (PyStr.strip
                (stdout (env_run E (calls w) (Adapter.private_call text))))]
     /\ filter (Indexer.same_key d "public") (chunks (disk w'))
        = [mkChunk d "public" (PyStr.slice_to 10000 text) ""
             (PyStr.strip
                (stdout (env_run E (calls w ++ [Adapter.private_call text])
                                 (Adapter.public_call text))))])
  /\ Forall (fun c =>
               In c (chunks (disk w))
               \/ exists q text,
                    fs_read_text (env_fs E) q = Ok text
                    /\ content c = PyStr.slice_to 10000 text)
            (chunks (Indexer.database_after (Indexer.main E w)))
  /\ (forall c1 c2,
        In c1 (chunks (disk (Indexer.after_runs Es Indexer.blank))) ->
        In c2 (chunks (disk (Indexer.after_runs Es Indexer.blank))) ->
        doc_id c1 = doc_id c2 -> content c1 = content c2).
Proof.
  intros Hidx Hrun. split; [|split].
  - pose proof (index_path_step E p w) as S. rewrite Hrun in S.
    inversion S as [ Hno | | | | text st' Hi Hr H1 H2 Hst Hw]; [congruence|].
    subst st' w'. exists text, (fst (Indexer.registered E p w)).
    cbn [disk]. rewrite write_chunks_docs, write_chunks_rows.
    split; [exact Hr|]. split.
    { destruct (registered_has_row E p w) as (r & Hin & Hid & Hp). eauto. }
    unfold Indexer.replace_rows. cbn [fold_left]. split.
    + rewrite replace_row_other
        by (unfold Indexer.same_key; simpl; apply andb_false_r).
      apply (replace_row_own _ (mkChunk _ "private" _ "" _)).
    + apply (replace_row_own _ (mkChunk _ "public" _ "" _)).
  - unfold Indexer.database_after. rewrite main_unfolds.
    eapply Forall_impl;
      [|exact (batch_chunks E (Indexer.candidates E Indexer.TARGET_DIRS)
                            (Indexer.opened w) eq_refl)].
    intros c [H|(text & (q & _ & _ & Hq) & Hc & _)]; [now left|right].
    exists q, text. split; assumption.
  - destruct (after_runs_sound Es Indexer.blank blank_sound)
      as (_ & _ & _ & Hsame).
    exact Hsame.
Qed.

(** The sample note indexed into an empty database. *)
Lemma both_layers_keep_raw_snapshot_witness :
  exists text d,
    fs_read_text (env_fs Sample.notes_only) Sample.notes = Ok text
    /\ (exists r, In r (docs (disk (snd (Indexer.index_path
                                           Sample.notes_only Sample.notes
                                           Indexer.blank))))
                  /\ id r = d /\ path r = Sample.notes)
    /\ filter (Indexer.same_key d "private")
              (chunks (disk (snd (Indexer.index_path
                                    Sample.notes_only Sample.notes
                                    Indexer.blank))))
       = [mkChunk d "private" (PyStr.slice_to 10000 text) ""
            "- a meeting about pay"]
    /\ filter (Indexer.same_key d "public")
              (chunks (disk (snd (Indexer.index_path
                                    Sample.notes_only Sample.notes
                                    Indexer.blank))))
       = [mkChunk d "public" (PyStr.slice_to 10000 text) ""
            "- a meeting about pay"].
Proof.
  exact (proj1 (@both_layers_keep_raw_snapshot
                  Sample.notes_only Sample.notes Indexer.blank
                  (snd (Indexer.index_path Sample.notes_only Sample.notes
                                           Indexer.blank))
                  [] eq_refl eq_refl)).
Defined.

(* ------------------------------------------------------------------ *)
(** ** Running the batch again *)

Section IndexedWorld.
Import Indexer.
Variables (E : Env) (p : Path) (w : World) (text : string).

(** The world a successful step leaves, by what matters of it. *)
Lemma indexed_world :
  should_index (env_fs E) p = true ->
  fs_read_text (env_fs E) p = Ok text ->
  (returncode (env_run E (calls w) (Adapter.private_call text)) =? 0)%Z
  = true ->
  (returncode (env_run E (calls w ++ [Adapter.private_call text])
                       (Adapter.public_call text)) =? 0)%Z = true ->
  exists w1,
    index_path E p w = (Ok tt, w1)
    /\ conn w1 = disk w1
    /\ docs (disk w1) = docs (snd (registered E p w))
    /\ chunks (disk w1)
       = replace_rows
           [mkChunk (fst (registered E p w)) "private"
                    (PyStr.slice_to SNAPSHOT_LEN text) ""
                    (PyStr.strip
                       (stdout (env_run E (calls w)
                                        (Adapter.private_call text))));
            mkChunk (fst (registered E p w)) "public"
                    (PyStr.slice_to SNAPSHOT_LEN text) ""
                    (PyStr.strip
                       (stdout (env_run E
                                        (calls w ++ [Adapter.private_call text])
                                        (Adapter.public_call text))))]
           (chunks (conn w)).
Proof.
  intros Hidx Hread H1 H2. eexists. split.
  { exact (index_path_indexes E p w Hidx Hread H1 H2). }
  cbn [conn disk]. rewrite write_chunks_docs, write_chunks_rows.
  rewrite registered_chunks. repeat split.
Qed.

End IndexedWorld.

Section Rerun.
Import Indexer.
Variable E : Env.
Hypothesis Hdet : deterministic E.

(** Two runs over the same candidates, the second from a database
    that resolves every path the first one ends up resolving, make the
    same chunk replacements and end the same way. *)
Lemma rerun_simulation files : forall w u,
  conn w = disk w -> conn u = disk u ->
  resolves_like (docs (disk (snd (for_each files (index_path E) w))))
                (docs (disk u)) ->
  exists rs,
    chunks (disk (snd (for_each files (index_path E) w)))
    = replace_rows rs (chunks (disk w))
    /\ chunks (disk (snd (for_each files (index_path E) u)))
       = replace_rows rs (chunks (disk u))
    /\ fst (for_each files (index_path E) u)
       = fst (for_each files (index_path E) w).
Proof.
  induction files as [|p files IH]; intros w u Hw Hu Hres.
  { exists []. now repeat split. }
  destruct (should_index (env_fs E) p) eqn:Hidx.
  2:{ rewrite (@for_each_cons_ok _ _ _ files _ _ (index_path_skip E p w Hidx)) in *.
      rewrite (@for_each_cons_ok _ _ _ files _ _ (index_path_skip E p u Hidx)).
      now apply IH. }
  destruct (fs_read_text (env_fs E) p) as [text|e] eqn:Hread.
  2:{ rewrite (@for_each_cons_raise _ _ _ files _ _ _ (index_path_unreadable E p w Hidx Hread)).
      rewrite (@for_each_cons_raise _ _ _ files _ _ _ (index_path_unreadable E p u Hidx Hread)).
      exists []. now repeat split. }
  pose proof (Hdet (calls u) (calls w) (Adapter.private_call text)) as D1.
  pose proof (Hdet (calls u ++ [Adapter.private_call text])
                   (calls w ++ [Adapter.private_call text])
                   (Adapter.public_call text)) as D2.
  destruct (returncode (env_run E (calls w) (Adapter.private_call text)) =? 0)%Z
    eqn:H1.
  2:{ rewrite (@for_each_cons_raise _ _ _ files _ _ _
                 (index_path_private_fails E p w Hidx Hread H1)).
      rewrite <- D1 in H1.
      rewrite (@for_each_cons_raise _ _ _ files _ _ _
                 (index_path_private_fails E p u Hidx Hread H1)).
      exists []. cbn [fst snd disk]. rewrite D1. now repeat split. }
  destruct (returncode (env_run E (calls w ++ [Adapter.private_call text])
                                (Adapter.public_call text)) =? 0)%Z eqn:H2.
  2:{ rewrite (@for_each_cons_raise _ _ _ files _ _ _
                 (index_path_public_fails E p w Hidx Hread H1 H2)).
      rewrite <- D1 in H1. rewrite <- D2 in H2.
      rewrite (@for_each_cons_raise _ _ _ files _ _ _
                 (index_path_public_fails E p u Hidx Hread H1 H2)).
      exists []. cbn [fst snd disk]. rewrite D2. now repeat split. }
  destruct (indexed_world E p w Hidx Hread H1 H2)
    as (w1 & Sw & Cw1 & Dw1 & Kw1).
  pose proof H1 as H1u. pose proof H2 as H2u.
  rewrite <- D1 in H1u. rewrite <- D2 in H2u.
  destruct (indexed_world E p u Hidx Hread H1u H2u)
    as (u1 & Su & Cu1 & Du1 & Ku1).
  rewrite D1, D2 in Ku1.
  rewrite (@for_each_cons_ok _ _ _ files _ _ Sw) in *.
  rewrite (@for_each_cons_ok _ _ _ files _ _ Su).
  (* the second run finds the id the first one used *)
  assert (fst (registered E p u) = fst (registered E p w)) as Hid.
  { destruct (upsert_doc_store_selects (env_clock E (ticks w)) p (conn w))
      as (r & Hr & Hrid).
    pose proof (batch_resolves E files w1 Cw1) as Hkeep.
    rewrite Dw1 in Hkeep.
    destruct (Hkeep p r Hr) as (r1 & Hr1 & Hid1).
    pose proof Hres as Hres'. rewrite <- Hu in Hres'.
    pose proof (@upsert_doc_store_resolved (env_clock E (ticks u)) p (conn u)
                  _ r1 Hres' Hr1) as X.
    unfold registered. congruence. }
  rewrite Hid in Ku1.
  destruct (IH w1 u1 Cw1 Cu1) as (rs & Cw & Cu & Hfst).
  { rewrite Du1.
    eapply resolves_like_trans; [exact Hres|].
    rewrite <- Hu. apply upsert_doc_store_resolves. }
  eexists (_ :: _ :: rs). split; [|split; [|exact Hfst]].
  - rewrite Cw, Kw1, Hw. reflexivity.
  - rewrite Cu, Ku1, Hu. reflexivity.
Qed.

End Rerun.

(** C2: with a backend that answers a call the same way whatever came
    before, a second run of [main] over the same tree, started from what
    the first run left, ends the way the first one did and leaves the
    chunk table equal to the one the first run left, row for row and in
    the same order. *)
Theorem rerun_leaves_chunks_unchanged (E : Env) (w : World) :
  Indexer.deterministic E ->
  chunks (Indexer.database_after (Indexer.main E (snd (Indexer.main E w))))
  = chunks (Indexer.database_after (Indexer.main E w))
  /\ fst (Indexer.main E (snd (Indexer.main E w))) = fst (Indexer.main E w).
Proof.
  intros Hdet. unfold Indexer.database_after.
  rewrite (main_unfolds E (snd (Indexer.main E w))), (main_unfolds E w).
  set (files := Indexer.candidates E Indexer.TARGET_DIRS).
  set (w1 := snd (for_each files (Indexer.index_path E) (Indexer.opened w))).
  destruct (rerun_simulation Hdet files (Indexer.opened w) (Indexer.opened w1)
              eq_refl eq_refl (resolves_like_refl _))
    as (rs & C1 & C2 & Hfst).
  fold w1 in C1. split; [|exact Hfst].
  rewrite C2. cbn [Indexer.opened disk]. rewrite C1.
  apply replace_rows_idempotent.
Qed.

(** The sample note indexed twice with the steady backend. *)
Lemma rerun_leaves_chunks_unchanged_witness :
  chunks (Indexer.database_after
            (Indexer.main Sample.notes_only
                          (snd (Indexer.main Sample.notes_only Indexer.blank))))
  = chunks (Indexer.database_after
              (Indexer.main Sample.notes_only Indexer.blank))
  /\ fst (Indexer.main Sample.notes_only
                       (snd (Indexer.main Sample.notes_only Indexer.blank)))
     = fst (Indexer.main Sample.notes_only Indexer.blank).
Proof.
  apply (@rerun_leaves_chunks_unchanged Sample.notes_only Indexer.blank).
  intros h1 h2 c. reflexivity.
Defined.

(* ------------------------------------------------------------------ *)
(** ** The query *)

Section QueryFacts.
Import Query.

Lemma firstn_incl {A} n (l : list A) x : In x (firstn n l) -> In x l.
Proof.
  revert l. induction n as [|n IH]; intros [|y l]; simpl; try tauto.
  intros [H|H]; auto.
Qed.

Lemma joined_in st c d :
  In (c, d) (joined st) <->
  In c (chunks st) /\ In d (docs st) /\ doc_id c = id d.
Proof.
  unfold joined. rewrite in_flat_map. split.
  - intros (c0 & Hc & Hin). apply in_map_iff in Hin as (d0 & Heq & Hd).
    inversion Heq; subst. apply filter_In in Hd as [Hd Hid].
    apply Z.eqb_eq in Hid. auto.
  - intros (Hc & Hd & Hid). exists c. split; [exact Hc|].
    apply in_map. apply filter_In. split; [exact Hd|].
    now apply Z.eqb_eq.
Qed.

Lemma selected_in q st cd :
  In cd (selected q st) ->
  In cd (joined st) /\ where_clause (pattern_of q) cd = true.
Proof.
  unfold selected. intros H. apply firstn_incl in H.
  now apply filter_In in H.
Qed.

Lemma fetchall_public q st :
  Forall (fun row =>
            exists c d,
              In c (chunks st) /\ In d (docs st) /\ doc_id c = id d
              /\ layer c = "public" /\ layer c <> "private"
              /\ row = (path d, summary c))
         (fetchall q st).
Proof.
  unfold fetchall. apply Forall_forall. intros row Hrow.
  apply in_map_iff in Hrow as ([c d] & <- & Hin).
  apply selected_in in Hin as [Hj Hw].
  apply joined_in in Hj as (Hc & Hd & Hid).
  unfold where_clause in Hw. apply andb_true_iff in Hw as [Hl _].
  apply String.eqb_eq in Hl. cbn [fst snd] in *.
  exists c, d. repeat split; auto. rewrite Hl. discriminate.
Qed.

(** Taking the non-public chunks away changes no query. *)
Lemma fetchall_ignores_others q st :
  fetchall q (set_chunks st (filter (fun c => String.eqb (layer c) "public")
                                    (chunks st)))
  = fetchall q st.
Proof.
  unfold fetchall, selected, joined. cbn [docs chunks set_chunks].
  do 2 f_equal.
  induction (chunks st) as [|c cs IH]; [reflexivity|].
  cbn [filter flat_map].
  destruct (String.eqb (layer c) "public") eqn:Hl.
  - cbn [flat_map]. rewrite !filter_app. now f_equal.
  - rewrite filter_app, IH.
    rewrite (filter_none (where_clause (pattern_of q))
               (l := map (fun d => (c, d))
                         (filter (fun d => (doc_id c =? id d)%Z) (docs st))));
      [reflexivity|].
    apply Forall_forall. intros cd Hin.
    apply in_map_iff in Hin as (d & <- & _).
    unfold where_clause. cbn [fst]. now rewrite Hl.
Qed.

Lemma fetchall_capped q st : (List.length (fetchall q st) <= LIMIT)%nat.
Proof.
  unfold fetchall, selected. rewrite length_map. apply firstn_le_length.
Qed.

(** The rows come in the order of the join, cut after [LIMIT]. *)
Lemma fetchall_in_storage_order q st :
  fetchall q st
  = firstn LIMIT
      (map (fun cd => (path (snd cd), summary (fst cd)))
           (filter (where_clause (pattern_of q)) (joined st))).
Proof. unfold fetchall, selected. now rewrite firstn_map. Qed.

Lemma fetchall_no_match q st :
  Forall (fun c => layer c = "public" ->
                   like (pattern_of q) (summary c) = false) (chunks st) ->
  fetchall q st = [].
Proof.
  intros H. unfold fetchall, selected. rewrite filter_none; [reflexivity|].
  apply Forall_forall. intros [c d] Hin.
  apply joined_in in Hin as (Hc & _ & _).
  rewrite Forall_forall in H. specialize (H c Hc).
  unfold where_clause. cbn [fst].
  destruct (String.eqb (layer c) "public") eqn:Hl; [|reflexivity].
  apply String.eqb_eq in Hl. now rewrite (H Hl).
Qed.

End QueryFacts.

(** *** LIKE on a keyword without wildcards *)

Section LikeFacts.
Import Query.

Lemma like_percent p s :
  like (String "%" p) s
  = like p s
    || match s with
       | EmptyString => false
       | String _ s' => like (String "%" p) s'
       end.
Proof. destruct s; reflexivity. Qed.

Lemma like_literal c p s :
  is_wildcard c = false ->
  like (String c p) s
  = match s with
    | EmptyString => false
    | String d s' => nocase_eqb c d && like p s'
    end.
Proof.
  unfold is_wildcard. intros H. apply orb_false_iff in H as [H1 H2].
  cbn [like]. rewrite H1, H2. reflexivity.
Qed.

Lemma like_percent_alone s : like "%" s = true.
Proof.
  induction s as [|c s IH]; [reflexivity|].
  rewrite like_percent. cbn [like PyStr.is_empty]. exact IH.
Qed.

Lemma like_plain_prefix q :
  plain q = true -> forall s, like (q ++ "%") s = nocase_prefix q s.
Proof.
  induction q as [|c q IH]; intros Hq s.
  - apply like_percent_alone.
  - cbn [plain] in Hq. apply andb_true_iff in Hq as [Hc Hq].
    apply negb_true_iff in Hc.
    change (String c q ++ "%")%string with (String c (q ++ "%")).
    rewrite like_literal by exact Hc. destruct s as [|d s]; [reflexivity|].
    cbn [nocase_prefix]. now rewrite IH.
Qed.

(** For a keyword without wildcards the pattern of the query matches
    exactly the summaries in which the keyword occurs up to ASCII
    case. *)
Lemma like_plain q s :
  plain q = true -> like (pattern_of q) s = nocase_substring q s.
Proof.
  intros Hq. unfold pattern_of.
  change ("%" ++ q ++ "%")%string with (String "%" (q ++ "%")).
  induction s as [|d s IH]; rewrite like_percent, like_plain_prefix by exact Hq.
  - destruct q; reflexivity.
  - rewrite IH. reflexivity.
Qed.

Lemma lower_char_ascii c :
  (PyStr.code c <? 128)%nat = true ->
  PyStr.lower_char c = sqlite_lower c
  /\ sqlite_lower (PyStr.lower_char c) = sqlite_lower c.
Proof.
  destruct c as [[|] [|] [|] [|] [|] [|] [|] [|]];
    intros H; try discriminate H; split; reflexivity.
Qed.

Lemma lower_char_wildcard c :
  is_wildcard (PyStr.lower_char c) = is_wildcard c.
Proof.
  destruct c as [[|] [|] [|] [|] [|] [|] [|] [|]]; reflexivity.
Qed.

Lemma lower_plain q : plain (PyStr.lower q) = plain q.
Proof.
  induction q as [|c q IH]; [reflexivity|].
  cbn [PyStr.lower plain]. now rewrite lower_char_wildcard, IH.
Qed.

Lemma nocase_prefix_lower a : forall b,
  ascii_only a = true ->
  nocase_prefix (PyStr.lower a) b = nocase_prefix a b.
Proof.
  induction a as [|x a IH]; intros [|y b] H; try reflexivity.
  cbn [ascii_only] in H. apply andb_true_iff in H as [Hx Ha].
  cbn [PyStr.lower nocase_prefix]. rewrite (IH b Ha).
  unfold nocase_eqb. now rewrite (proj2 (lower_char_ascii x Hx)).
Qed.

Lemma prefix_lower a : forall b,
  ascii_only a = true -> ascii_only b = true ->
  String.prefix (PyStr.lower a) (PyStr.lower b) = nocase_prefix a b.
Proof.
  induction a as [|x a IH]; intros [|y b] Ha Hb; try reflexivity.
  cbn [ascii_only] in Ha, Hb.
  apply andb_true_iff in Ha as [Hx Ha]. apply andb_true_iff in Hb as [Hy Hb].
  cbn [PyStr.lower String.prefix nocase_prefix]. rewrite (IH b Ha Hb).
  unfold nocase_eqb.
  rewrite <- (proj1 (lower_char_ascii x Hx)), <- (proj1 (lower_char_ascii y Hy)).
  destruct (ascii_dec (PyStr.lower_char x) (PyStr.lower_char y)) as [e|n].
  - rewrite e, Ascii.eqb_refl. reflexivity.
  - apply Ascii.eqb_neq in n. now rewrite n.
Qed.

(** On ASCII text and for an ASCII keyword without wildcards, the
    query matches as the spec says. *)
Lemma like_matches_spec_on_plain_ascii keyword s :
  plain keyword = true -> ascii_only keyword = true -> ascii_only s = true ->
  like (pattern_of (PyStr.lower keyword)) s = spec_match keyword s.
Proof.
  intros Hp Hk Hs. rewrite like_plain by now rewrite lower_plain.
  unfold spec_match.
  induction s as [|d s IH].
  - cbn [nocase_substring PyStr.lower PyStr.is_substring].
    rewrite nocase_prefix_lower by exact Hk.
    now rewrite <- (prefix_lower keyword "" Hk eq_refl).
  - cbn [ascii_only] in Hs. pose proof Hs as Hs'.
    apply andb_true_iff in Hs' as [_ Hs'].
    cbn [nocase_substring]. rewrite (IH Hs').
    rewrite nocase_prefix_lower by exact Hk.
    rewrite <- (prefix_lower keyword (String d s) Hk Hs).
    reflexivity.
Qed.

End LikeFacts.

(** C1: every row [search] returns, for any keyword and any database,
    is the path of a document row and the summary of a chunk row of that
    document whose layer is ["public"], hence not ["private"]; the
    command-line [main] prints such rows only; and taking every
    non-public chunk out of the database changes no search result. *)
Theorem search_returns_public_rows_only (keyword : string) (st : Store) :
  Forall (fun row =>
            exists c d,
              In c (chunks st) /\ In d (docs st) /\ doc_id c = id d
              /\ layer c = "public" /\ layer c <> "private"
              /\ row = (path d, summary c))
         (Query.search keyword st)
  /\ (forall argv,
        match Query.main argv st with
        | Query.Usage => True
        | Query.Printed rows =>
            Forall (fun row =>
                      exists c d,
                        In c (chunks st) /\ In d (docs st)
                        /\ doc_id c = id d /\ layer c = "public"
                        /\ row = (path d, summary c)) rows
        end)
  /\ Query.search keyword
       (set_chunks st (filter (fun c => String.eqb (layer c) "public")
                              (chunks st)))
     = Query.search keyword st.
Proof.
  split; [apply fetchall_public|]. split; [|apply fetchall_ignores_others].
  intros argv. unfold Query.main.
  destruct (List.length argv <? 2)%nat; [exact I|].
  eapply Forall_impl; [|apply fetchall_public].
  intros row (c & d & H1 & H2 & H3 & H4 & _ & H5). exists c, d. auto.
Qed.

(** C9, where the code departs from the claim: the keyword goes into the
    LIKE pattern as it is, so an underscore or a percent sign in it is a
    wildcard.  On a database whose one public summary is ["abc"] the
    keywords ["_"] and ["%"] both return that row, though neither
    occurs in the summary. *)
Theorem search_keyword_wildcards_match :
  Query.search "_" Sample.small_store = [(Sample.notes, "abc")]
  /\ Query.spec_match "_" "abc" = false
  /\ Query.search "%" Sample.small_store = [(Sample.notes, "abc")]
  /\ Query.spec_match "%" "abc" = false
  /\ Query.main ["rlm_query.py"; "a_c"] Sample.small_store
     = Query.Printed [(Sample.notes, "abc")]
  /\ Query.spec_match "a_c" "abc" = false.
Proof. vm_compute. repeat split. Qed.

(** The rest of C9 holds of the code: at most ten rows, in the order of
    the chunk table, and an empty list (no error) when nothing
    matches. *)
Lemma search_capped_ordered_total (keyword : string) (st : Store) :
  (List.length (Query.search keyword st) <= 10)%nat
  /\ Query.search keyword st
     = firstn 10
         (map (fun cd => (path (snd cd), summary (fst cd)))
              (filter (Query.where_clause
                         (Query.pattern_of (PyStr.lower keyword)))
                      (Query.joined st)))
  /\ (Forall (fun c => layer c = "public" ->
                       Query.like (Query.pattern_of (PyStr.lower keyword))
                                  (summary c) = false) (chunks st) ->
      Query.search keyword st = []).
Proof.
  split; [apply fetchall_capped|].
  split; [apply fetchall_in_storage_order|apply fetchall_no_match].
Qed.

(* ================================================================== *)
(** * Further properties of the indexer, the adapter and the query *)

(* ------------------------------------------------------------------ *)
(** ** Which paths [should_index] takes *)

Section PathFacts.
Import Indexer.

Lemma is_relative_to_prefix p : forall ex,
  is_relative_to p ex = true <-> exists rest, p = ex ++ rest.
Proof.
  revert p. intros p ex. revert p.
  induction ex as [|o ex IH]; intros p.
  - split; [exists p; reflexivity|now destruct p].
  - destruct p as [|x p]; cbn [is_relative_to].
    + split; [discriminate|]. intros (rest & H). discriminate H.
    + rewrite andb_true_iff, String.eqb_eq, IH. split.
      * intros [ -> (rest & ->)]. exists rest. reflexivity.
      * intros (rest & H). inversion H; subst. eauto.
Qed.

Lemma has_dot_rfind s : has_dot s = false -> PyStr.rfind_dot s = None.
Proof.
  induction s as [|c s IH]; [reflexivity|].
  cbn [has_dot PyStr.rfind_dot]. intros H.
  apply orb_false_iff in H as [Hc Hs]. now rewrite (IH Hs), Hc.
Qed.

Lemma rfind_dot_last_dot stem ext :
  has_dot ext = false ->
  PyStr.rfind_dot (note_name stem ext) = Some (String.length stem).
Proof.
  intros H. unfold note_name.
  induction stem as [|c stem IH]; cbn [String.append PyStr.rfind_dot String.length].
  - now rewrite (@has_dot_rfind _ H).
  - now rewrite IH.
Qed.

Lemma slice_from_append stem t :
  PyStr.slice_from (String.length stem) (stem ++ t) = t.
Proof. induction stem as [|c stem IH]; [now destruct t|exact IH]. Qed.

Lemma note_name_length stem ext :
  String.length (note_name stem ext)
  = (String.length stem + S (String.length ext))%nat.
Proof.
  unfold note_name. induction stem as [|c stem IH]; cbn; [reflexivity|].
  now rewrite IH.
Qed.

Lemma lower_char_dot c :
  Ascii.eqb (PyStr.lower_char c) "." = Ascii.eqb c ".".
Proof.
  destruct c as [[|] [|] [|] [|] [|] [|] [|] [|]]; reflexivity.
Qed.

Lemma lower_has_dot s : has_dot (PyStr.lower s) = has_dot s.
Proof.
  induction s as [|c s IH]; [reflexivity|].
  cbn [PyStr.lower has_dot]. now rewrite lower_char_dot, IH.
Qed.

Lemma lower_length s : String.length (PyStr.lower s) = String.length s.
Proof. induction s as [|c s IH]; cbn; congruence. Qed.

(** The suffix of [stem.ext] is [.ext] when the stem is not empty and
    the extension is not empty and has no dot. *)
Lemma suffix_of_note dir stem ext :
  stem <> EmptyString -> ext <> EmptyString -> has_dot ext = false ->
  suffix (dir ++ [note_name stem ext]) = String "." ext.
Proof.
  intros Hs He Hd. unfold suffix, name. rewrite last_last.
  rewrite (@rfind_dot_last_dot stem ext Hd), note_name_length.
  destruct stem as [|c stem]; [congruence|].
  destruct ext as [|e ext]; [congruence|].
  replace ((0 <? String.length (String c stem))%nat
           && (String.length (String c stem)
               <? String.length (String c stem)
                  + S (String.length (String e ext)) - 1)%nat) with true.
  - unfold note_name. apply slice_from_append.
  - symmetry. apply andb_true_iff. split; apply Nat.ltb_lt; cbn; lia.
Qed.

End PathFacts.

(** X1: [should_index] turns a path down for exclusion exactly when the
    path is an entry of [EXCLUDE] followed by further parts: the test is
    on whole path components, so an excluded directory itself counts and
    a sibling whose name merely starts like an excluded one does not. *)
Theorem exclusion_is_by_whole_components (p : Path) :
  Indexer.under_exclude p = true
  <-> exists ex rest, In ex Indexer.EXCLUDE /\ p = ex ++ rest.
Proof.
  unfold Indexer.under_exclude. rewrite existsb_exists. split.
  - intros (ex & Hin & H). apply is_relative_to_prefix in H as (rest & H).
    exists ex, rest. auto.
  - intros (ex & rest & Hin & H). exists ex. split; [exact Hin|].
    apply is_relative_to_prefix. eauto.
Qed.

(** X2: no path that lies under one of the configured target
    directories is under an exclusion prefix; for such a path
    [should_index] comes down to "not a directory, and an allowed
    suffix". *)
Theorem targets_are_never_excluded :
  Forall (fun base =>
            forall (fs : FileSystem) (rest : list string),
              Indexer.under_exclude (base ++ rest) = false
              /\ Indexer.should_index fs (base ++ rest)
                 = negb (fs_is_dir fs (base ++ rest))
                   && Indexer.allowed_suffix (base ++ rest))
         Indexer.TARGET_DIRS.
Proof.
  assert (Forall (fun base => forall rest,
                      Indexer.under_exclude (base ++ rest) = false)
                 Indexer.TARGET_DIRS) as H.
  { repeat constructor; intros rest; reflexivity. }
  eapply Forall_impl; [|exact H].
  intros base Hb fs rest. split; [apply Hb|].
  unfold Indexer.should_index. rewrite Hb.
  destruct (fs_is_dir fs (base ++ rest)); [reflexivity|].
  now destruct (Indexer.allowed_suffix (base ++ rest)).
Qed.

(** X3: a regular file that is not excluded and whose name is a stem
    that is not empty, a dot, and [md] or [txt] in any mix of upper and
    lower case, is indexed. *)
Theorem notes_are_indexed_in_any_case
        (fs : FileSystem) (dir : Path) (stem ext : string) :
  stem <> EmptyString ->
  PyStr.lower ext = "md" \/ PyStr.lower ext = "txt" ->
  fs_is_dir fs (dir ++ [note_name stem ext]) = false ->
  Indexer.under_exclude (dir ++ [note_name stem ext]) = false ->
  Indexer.should_index fs (dir ++ [note_name stem ext]) = true.
Proof.
  intros Hs Hext Hdir Hex.
  assert (ext <> EmptyString /\ has_dot ext = false) as [He Hd].
  { split.
    - intros ->. destruct Hext as [H|H]; discriminate H.
    - rewrite <- lower_has_dot. destruct Hext as [ -> | -> ]; reflexivity. }
  unfold Indexer.should_index, Indexer.allowed_suffix.
  rewrite Hdir, Hex, (@suffix_of_note dir stem ext Hs He Hd).
  cbn [PyStr.lower].
  replace (PyStr.lower_char ".") with "."%char by reflexivity.
  destruct Hext as [ -> | -> ]; reflexivity.
Qed.

(** Mixed-case extensions under a target directory. *)
Lemma notes_are_indexed_in_any_case_witness :
  Indexer.should_index (Sample.tree [])
    (Sample.shared ++ [note_name "Weekly.Plan" "Md"]) = true
  /\ Indexer.should_index (Sample.tree [])
       (Sample.shared ++ [note_name "log" "TXT"]) = true.
Proof.
  split.
  - apply (@notes_are_indexed_in_any_case
             (Sample.tree []) Sample.shared "Weekly.Plan" "Md");
      [discriminate|left; reflexivity|reflexivity|reflexivity].
  - apply (@notes_are_indexed_in_any_case
             (Sample.tree []) Sample.shared "log" "TXT");
      [discriminate|right; reflexivity|reflexivity|reflexivity].
Defined.



(* ------------------------------------------------------------------ *)
(** ** The document registry keeps one row per path and per id *)

Section RegistryFacts.
Import Indexer.

Lemma map_injective_on {A B} (f : A -> B) l a b :
  NoDup (map f l) -> In a l -> In b l -> f a = f b -> a = b.
Proof.
  induction l as [|x l IH]; cbn [map]; intros Hn Ha Hb Hf; [contradiction|].
  apply NoDup_cons_iff in Hn as [Hx Hn].
  destruct Ha as [ -> |Ha], Hb as [ -> |Hb]; auto.
  - exfalso. apply Hx. rewrite Hf. now apply in_map.
  - exfalso. apply Hx. rewrite <- Hf. now apply in_map.
Qed.

Lemma NoDup_snoc {A} (l : list A) x : NoDup l -> ~ In x l -> NoDup (l ++ [x]).
Proof.
  intros Hl Hx. apply NoDup_app; [exact Hl|repeat constructor; intros []|].
  intros a Ha [ <- |[]]. contradiction.
Qed.

Lemma upsert_doc_store_registry now p st :
  registry_ok (docs st) ->
  registry_ok (docs (snd (upsert_doc_store now p st))).
Proof.
  intros [Hid Hp]. unfold upsert_doc_store.
  destruct (select_doc p (docs st)) as [r|] eqn:Hsel; cbn [snd docs set_docs].
  - destruct (touch_doc_columns now (id r) (docs st)) as (C1 & C2 & _).
    split; congruence.
  - split; rewrite map_app; cbn [map id path].
    + apply NoDup_snoc; [exact Hid|apply next_rowid_fresh].
    + apply NoDup_snoc; [exact Hp|].
      intros Hin. apply in_map_iff in Hin as (r & Hr & Hin).
      exact (proj1 (select_doc_none p (docs st)) Hsel r Hin Hr).
Qed.

Lemma registered_registry E p w :
  registry_ok (docs (conn w)) ->
  registry_ok (docs (snd (registered E p w))).
Proof. apply upsert_doc_store_registry. Qed.

End RegistryFacts.

(** X5: [upsert_doc] keeps the registry well formed and can be looked
    up at once: if ids and paths are each unique among the document
    rows, they still are after the call, and the row of the path is then
    the one row with that path, carrying the id the call returned. *)
Theorem upsert_doc_keeps_one_row_per_path (E : Env) (p : Path) (w : World) :
  registry_ok (docs (conn w)) ->
  exists d w' r,
    Indexer.upsert_doc E p w = (Ok d, w')
    /\ registry_ok (docs (conn w'))
    /\ Indexer.select_doc p (docs (conn w')) = Some r
    /\ id r = d
    /\ (forall r', In r' (docs (conn w')) -> path r' = p -> r' = r).
Proof.
  intros Hreg.
  destruct (upsert_doc_store_selects (env_clock E (ticks w)) p (conn w))
    as (r & Hr & Hid).
  exists (fst (Indexer.registered E p w)). eexists. exists r.
  split; [apply upsert_doc_runs|]. cbn [conn].
  pose proof (registered_registry E p w Hreg) as [Hids Hpaths].
  split; [now split|]. split; [exact Hr|]. split; [exact Hid|].
  intros r' Hin Hp.
  apply (map_injective_on path (docs (snd (Indexer.registered E p w))));
    [exact Hpaths|exact Hin|exact (select_doc_in _ _ Hr)|].
  rewrite Hp. symmetry. exact (select_doc_path _ _ Hr).
Qed.

Lemma upsert_doc_keeps_one_row_per_path_witness :
  exists d w' r,
    Indexer.upsert_doc Sample.notes_only Sample.locked
      (mkWorld Sample.small_store Sample.small_store [] 0 []) = (Ok d, w')
    /\ registry_ok (docs (conn w'))
    /\ Indexer.select_doc Sample.locked (docs (conn w')) = Some r
    /\ id r = d
    /\ (forall r', In r' (docs (conn w')) -> path r' = Sample.locked -> r' = r).
Proof.
  apply (@upsert_doc_keeps_one_row_per_path
           Sample.notes_only Sample.locked
           (mkWorld Sample.small_store Sample.small_store [] 0 [])).
  split; repeat constructor; intros [].
Defined.

(** X6: with unique ids in the registry, two different paths never get
    the same document id from [upsert_doc], whether each was known
    before or not. *)
Theorem different_paths_get_different_ids
        (E : Env) (p q : Path) (w w1 w2 : World) (d1 d2 : Z) :
  registry_ok (docs (conn w)) ->
  p <> q ->
  Indexer.upsert_doc E p w = (Ok d1, w1) ->
  Indexer.upsert_doc E q w1 = (Ok d2, w2) ->
  d1 <> d2.
Proof.
  intros Hreg Hpq H1 H2.
  rewrite upsert_doc_runs in H1. inversion H1. subst d1 w1. clear H1.
  rewrite upsert_doc_runs in H2. inversion H2 as [[Hd2 Hw2]]. clear H2 Hw2.
  destruct (upsert_doc_store_selects (env_clock E (ticks w)) p (conn w))
    as (r1 & Hr1 & Hid1).
  pose proof (registered_registry E p w Hreg) as [Hids _].
  unfold Indexer.registered in *. cbn [conn ticks] in *.
  set (st1 := snd (Indexer.upsert_doc_store (env_clock E (ticks w)) p (conn w)))
    in *.
  rewrite Hd2. unfold Indexer.upsert_doc_store in Hd2.
  destruct (Indexer.select_doc q (docs st1)) as [r2|] eqn:Hsel;
    cbn [fst] in Hd2; intros Heq.
  - assert (r1 = r2) as Hr.
    { apply (map_injective_on id (docs st1));
        [exact Hids|exact (select_doc_in _ _ Hr1)
        |exact (select_doc_in _ _ Hsel)|congruence]. }
    apply Hpq. rewrite <- (select_doc_path _ _ Hr1), <- (select_doc_path _ _ Hsel).
    now rewrite Hr.
  - apply (next_rowid_fresh (docs st1)). rewrite Hd2, <- Heq, <- Hid1.
    apply in_map. exact (select_doc_in _ _ Hr1).
Qed.

Lemma different_paths_get_different_ids_witness : 1%Z <> 2%Z.
Proof.
  apply (@different_paths_get_different_ids
           Sample.notes_only Sample.notes Sample.locked
           Indexer.blank
           (snd (Indexer.upsert_doc Sample.notes_only Sample.notes Indexer.blank))
           (snd (Indexer.upsert_doc Sample.notes_only Sample.locked
                   (snd (Indexer.upsert_doc Sample.notes_only Sample.notes
                                            Indexer.blank))))
           1 2);
    [split; constructor|discriminate|reflexivity|reflexivity].
Defined.

(* ------------------------------------------------------------------ *)
(** ** How chunk replacements compose *)

(** X7: writing a chunk for a key and then writing another for the same
    key leaves the store that the second write alone leaves: the last
    write wins and nothing of the first remains. *)
Theorem upsert_chunk_last_write_wins
        (d : Z) (l c1 s1 c2 s2 : string) (w : World) :
  bind (Indexer.upsert_chunk d l c1 s1)
       (fun _ => Indexer.upsert_chunk d l c2 s2) w
  = Indexer.upsert_chunk d l c2 s2 w.
Proof.
  unfold bind, Indexer.upsert_chunk, on_conn. cbn [conn disk calls ticks indexed].
  do 2 f_equal.
  unfold Indexer.upsert_chunk_store, set_chunks. cbn [docs chunks].
  f_equal. f_equal.
  rewrite filter_app, filter_twice. cbn [filter].
  unfold Indexer.same_key at 3. cbn [doc_id layer].
  rewrite Z.eqb_refl, String.eqb_refl. cbn [andb negb].
  rewrite app_nil_r. apply filter_ext. intros x. apply andb_diag.
Qed.

(** X8: writes under two different keys do not disturb each other: in
    either order they leave the same document table and the same chunk
    rows, up to the order of the two new rows at the end. *)
Theorem upsert_chunk_commutes_across_keys
        (d1 d2 : Z) (l1 l2 c1 s1 c2 s2 : string) (st : Store) :
  d1 <> d2 \/ l1 <> l2 ->
  docs (Indexer.upsert_chunk_store d1 l1 c1 s1
          (Indexer.upsert_chunk_store d2 l2 c2 s2 st))
  = docs (Indexer.upsert_chunk_store d2 l2 c2 s2
            (Indexer.upsert_chunk_store d1 l1 c1 s1 st))
  /\ exists kept,
       chunks (Indexer.upsert_chunk_store d1 l1 c1 s1
                 (Indexer.upsert_chunk_store d2 l2 c2 s2 st))
       = kept ++ [mkChunk d2 l2 c2 "" s2; mkChunk d1 l1 c1 "" s1]
       /\ chunks (Indexer.upsert_chunk_store d2 l2 c2 s2
                    (Indexer.upsert_chunk_store d1 l1 c1 s1 st))
          = kept ++ [mkChunk d1 l1 c1 "" s1; mkChunk d2 l2 c2 "" s2].
Proof.
  intros Hne. split; [reflexivity|].
  assert (Indexer.same_key d1 l1 (mkChunk d2 l2 c2 "" s2) = false) as K12.
  { destruct (Indexer.same_key d1 l1 (mkChunk d2 l2 c2 "" s2)) eqn:K;
      [|reflexivity].
    apply same_key_spec in K as [Kd Kl]. cbn in Kd, Kl.
    destruct Hne; congruence. }
  assert (Indexer.same_key d2 l2 (mkChunk d1 l1 c1 "" s1) = false) as K21.
  { destruct (Indexer.same_key d2 l2 (mkChunk d1 l1 c1 "" s1)) eqn:K;
      [|reflexivity].
    apply same_key_spec in K as [Kd Kl]. cbn in Kd, Kl.
    destruct Hne; congruence. }
  exists (filter (fun x => negb (Indexer.same_key d2 l2 x)
                           && negb (Indexer.same_key d1 l1 x)) (chunks st)).
  unfold Indexer.upsert_chunk_store, set_chunks. cbn [docs chunks].
  rewrite !filter_app, !filter_twice. cbn [filter].
  rewrite K12, K21. cbn [negb]. rewrite <- !app_assoc. cbn [app].
  split; [reflexivity|].
  f_equal. apply filter_ext. intros x. apply andb_comm.
Qed.

Lemma upsert_chunk_commutes_across_keys_witness :
  exists kept,
    chunks (Indexer.upsert_chunk_store 1 "private" "a" "sa"
              (Indexer.upsert_chunk_store 1 "public" "b" "sb"
                                          Sample.small_store))
    = kept ++ [mkChunk 1 "public" "b" "" "sb"; mkChunk 1 "private" "a" "" "sa"]
    /\ chunks (Indexer.upsert_chunk_store 1 "public" "b" "sb"
                 (Indexer.upsert_chunk_store 1 "private" "a" "sa"
                                             Sample.small_store))
       = kept ++ [mkChunk 1 "private" "a" "" "sa"; mkChunk 1 "public" "b" "" "sb"].
Proof.
  apply (@upsert_chunk_commutes_across_keys
           1 1 "private" "public" "a" "sa" "b" "sb" Sample.small_store).
  right. discriminate.
Defined.

(* ------------------------------------------------------------------ *)
(** ** What a batch keeps and what it leaves alone *)

Section CompleteFacts.
Import Indexer.

Lemma replace_row_at_most_one cs r :
  (forall d l, (List.length (filter (same_key d l) cs) <= 1)%nat) ->
  forall d l,
    (List.length (filter (same_key d l) (replace_row cs r)) <= 1)%nat.
Proof.
  intros H d l. destruct (same_key d l r) eqn:K.
  - apply same_key_spec in K as [ <- <- ]. now rewrite replace_row_own.
  - rewrite replace_row_other by exact K. apply H.
Qed.

Lemma write_chunks_own d text s1 s2 st :
  filter (same_key d "private") (chunks (write_chunks d text s1 s2 st))
  = [mkChunk d "private" (PyStr.slice_to SNAPSHOT_LEN text) "" s1]
  /\ filter (same_key d "public") (chunks (write_chunks d text s1 s2 st))
     = [mkChunk d "public" (PyStr.slice_to SNAPSHOT_LEN text) "" s2].
Proof.
  rewrite write_chunks_rows. unfold replace_rows. cbn [fold_left]. split.
  - rewrite replace_row_other
      by (unfold same_key; cbn [doc_id layer]; rewrite Z.eqb_refl; reflexivity).
    apply (replace_row_own _ (mkChunk _ "private" _ "" _)).
  - apply (replace_row_own _ (mkChunk _ "public" _ "" _)).
Qed.

Lemma write_chunks_other d text s1 s2 st d' l :
  d' <> d ->
  filter (same_key d' l) (chunks (write_chunks d text s1 s2 st))
  = filter (same_key d' l) (chunks st).
Proof.
  intros Hd. rewrite write_chunks_rows. unfold replace_rows. cbn [fold_left].
  assert (forall l0 c s, same_key d' l (mkChunk d l0 c "" s) = false) as K.
  { intros l0 c s. unfold same_key. cbn [doc_id].
    replace (d =? d')%Z with false; [reflexivity|].
    symmetry. apply Z.eqb_neq. congruence. }
  now rewrite !replace_row_other by apply K.
Qed.

Lemma write_chunks_complete E p w text s1 s2 :
  complete (conn w) ->
  complete (write_chunks (fst (registered E p w)) text s1 s2
                         (snd (registered E p w))).
Proof.
  intros (Hreg & Hall & Hone). unfold complete.
  rewrite write_chunks_docs. split; [now apply registered_registry|]. split.
  - apply Forall_forall. intros x Hx.
    destruct (Z.eq_dec (id x) (fst (registered E p w))) as [e|n].
    + rewrite e.
      destruct (write_chunks_own (fst (registered E p w)) text s1 s2
                                 (snd (registered E p w))) as [O1 O2].
      split; eexists; eassumption.
    + apply registered_docs_in in Hx as [(d0 & Hin & Hid & _)|[_ Hid]];
        [|contradiction].
      unfold exactly_one. rewrite !write_chunks_other by exact n.
      rewrite registered_chunks, <- Hid.
      exact (proj1 (Forall_forall _ _) Hall d0 Hin).
  - rewrite write_chunks_rows, registered_chunks. unfold replace_rows.
    cbn [fold_left]. now do 2 apply replace_row_at_most_one.
Qed.

Lemma batch_complete E files w :
  conn w = disk w -> complete (disk w) ->
  complete (disk (snd (for_each files (index_path E) w))).
Proof.
  intros Hc Hs.
  apply (@batch_invariant E (fun w' => complete (disk w'))
                          (fun w' => complete (disk w')));
    [auto| |exact Hs|exact Hc].
  intros p w0 r HI Hcd S.
  destruct S as [ | | text Hi Hr | text Hi Hr | text st' Hi Hr _ _ -> ];
    cbn [fst snd disk]; try exact HI.
  apply write_chunks_complete. now rewrite Hcd.
Qed.

Lemma blank_complete : complete (disk blank).
Proof.
  repeat split; try constructor. cbn. lia.
Qed.

Lemma after_runs_complete Es : forall w,
  complete (disk w) -> complete (disk (after_runs Es w)).
Proof.
  induction Es as [|E Es IH]; intros w H; cbn [after_runs]; [exact H|].
  apply IH. rewrite main_unfolds. now apply batch_complete.
Qed.

End CompleteFacts.

(** X9: a batch run commits a document together with both its chunks or
    not at all.  If, in the database, ids and paths are unique among the
    document rows, every document row has exactly one private and
    exactly one public chunk and no key has two chunk rows, then the
    same holds of the database after [main], however the run ends; so it
    holds of every database reached by batch runs from the empty one. *)
Theorem batch_keeps_documents_complete (E : Env) (w : World) (Es : list Env) :
  complete (disk w) ->
  complete (Indexer.database_after (Indexer.main E w))
  /\ complete (disk (Indexer.after_runs Es Indexer.blank)).
Proof.
  intros H. split.
  - unfold Indexer.database_after. rewrite main_unfolds.
    now apply batch_complete.
  - apply after_runs_complete. apply blank_complete.
Qed.

(** A run that ends with a read error at its third candidate, and two
    runs one after the other. *)
Lemma batch_keeps_documents_complete_witness :
  complete (Indexer.database_after
              (Indexer.main (Sample.env [Sample.notes; Sample.diary;
                                         Sample.locked] Sample.steady)
                            Indexer.blank))
  /\ complete (disk (Indexer.after_runs [Sample.notes_only; Sample.locked_first]
                                        Indexer.blank)).
Proof.
  apply (@batch_keeps_documents_complete
           (Sample.env [Sample.notes; Sample.diary; Sample.locked] Sample.steady)
           Indexer.blank [Sample.notes_only; Sample.locked_first]).
  apply blank_complete.
Defined.

Section NeverDeletes.
Import Indexer.

Lemma touch_doc_identity now i ds :
  map doc_identity (touch_doc now i ds) = map doc_identity ds.
Proof.
  induction ds as [|r ds IH]; cbn [touch_doc map]; [reflexivity|].
  unfold touch_doc in IH. rewrite IH. now destruct (id r =? i)%Z.
Qed.

Lemma registered_identity E p w :
  exists extra,
    map doc_identity (docs (snd (registered E p w)))
    = map doc_identity (docs (conn w)) ++ extra.
Proof.
  unfold registered, upsert_doc_store.
  destruct (select_doc p (docs (conn w))) as [r|]; cbn [snd docs set_docs].
  - exists []. now rewrite touch_doc_identity, app_nil_r.
  - eexists. now rewrite map_app.
Qed.

Lemma replace_row_keeps_keys cs r x :
  In x cs ->
  exists x', In x' (replace_row cs r)
             /\ doc_id x' = doc_id x /\ layer x' = layer x.
Proof.
  intros Hx. unfold replace_row.
  destruct (same_key (doc_id r) (layer r) x) eqn:K.
  - apply same_key_spec in K as [Kd Kl]. exists r.
    split; [apply in_or_app; right; now left|now split].
  - exists x. split; [|now split].
    apply in_or_app. left. apply filter_In. now rewrite K.
Qed.

Lemma batch_never_deletes E files w :
  conn w = disk w ->
  (exists extra,
     map doc_identity (docs (disk (snd (for_each files (index_path E) w))))
     = map doc_identity (docs (disk w)) ++ extra)
  /\ Forall (fun c =>
               exists c',
                 In c' (chunks (disk (snd (for_each files (index_path E) w))))
                 /\ doc_id c' = doc_id c /\ layer c' = layer c)
            (chunks (disk w)).
Proof.
  intros Hc.
  set (I := fun w' : World =>
              (exists extra,
                 map doc_identity (docs (disk w'))
                 = map doc_identity (docs (disk w)) ++ extra)
              /\ Forall (fun c =>
                           exists c', In c' (chunks (disk w'))
                                      /\ doc_id c' = doc_id c
                                      /\ layer c' = layer c)
                        (chunks (disk w))).
  apply (@batch_invariant E I I); [auto| | |exact Hc].
  2:{ split; [exists []; now rewrite app_nil_r|].
      apply Forall_forall. intros c Hin. exists c. auto. }
  intros p w0 r HI Hcd S.
  destruct S as [ | | text Hi Hr | text Hi Hr | text st' Hi Hr _ _ -> ];
    cbn [fst snd disk]; try exact HI.
  destruct HI as [(extra & Hdocs) Hkeys]. split.
  - cbn [disk]. rewrite write_chunks_docs.
    destruct (registered_identity E p w0) as (more & Hmore).
    exists (extra ++ more). rewrite Hmore, Hcd, Hdocs. now rewrite app_assoc.
  - cbn [disk]. rewrite write_chunks_rows, registered_chunks, Hcd.
    unfold replace_rows. cbn [fold_left].
    eapply Forall_impl; [|exact Hkeys].
    intros c (c1 & Hin1 & Hd1 & Hl1).
    destruct (replace_row_keeps_keys
                (chunks (disk w0))
                (mkChunk (fst (registered E p w0)) "private"
                         (PyStr.slice_to SNAPSHOT_LEN text) ""
                         (PyStr.strip
                            (stdout (env_run E (calls w0)
                                             (Adapter.private_call text)))))
                c1 Hin1) as (c2 & Hin2 & Hd2 & Hl2).
    match goal with
    | |- exists _, In _ (replace_row ?cs ?r) /\ _ =>
        destruct (replace_row_keeps_keys cs r c2 Hin2)
          as (c3 & Hin3 & Hd3 & Hl3)
    end.
    exists c3. repeat split; [exact Hin3|congruence|congruence].
Qed.

End NeverDeletes.

(** X10: a batch run never deletes.  The document rows it finds are
    still there afterwards, in the same order and with the same id,
    path, source and creation time, any new rows coming after them; and
    every (document, layer) key that had a chunk row before the run
    still has one after it.  In particular the rows of a file that has
    disappeared from the tree stay in the database. *)
Theorem batch_never_deletes_rows (E : Env) (w : World) :
  (exists extra,
     map doc_identity (docs (Indexer.database_after (Indexer.main E w)))
     = map doc_identity (docs (disk w)) ++ extra)
  /\ Forall (fun c =>
               exists c',
                 In c' (chunks (Indexer.database_after (Indexer.main E w)))
                 /\ doc_id c' = doc_id c /\ layer c' = layer c)
            (chunks (disk w)).
Proof.
  unfold Indexer.database_after. rewrite main_unfolds.
  exact (batch_never_deletes E (Indexer.candidates E Indexer.TARGET_DIRS)
                             (Indexer.opened w) eq_refl).
Qed.



(* ------------------------------------------------------------------ *)
(** ** What a run reports and what it asks of the backend *)

Section RunReport.
Import Indexer.

Lemma batch_report E files : forall w w',
  for_each files (index_path E) w = (Ok tt, w') ->
  indexed w' = indexed w ++ filter (should_index (env_fs E)) files
  /\ List.length (calls w')
     = (List.length (calls w)
        + 2 * List.length (filter (should_index (env_fs E)) files))%nat
  /\ ticks w'
     = (ticks w + List.length (filter (should_index (env_fs E)) files))%nat.
Proof.
  induction files as [|p files IH]; intros w w' H.
  - inversion H; subst. cbn. rewrite app_nil_r. repeat split; lia.
  - cbn [for_each] in H. unfold bind in H.
    pose proof (index_path_step E p w) as S.
    destruct (index_path E p w) as [[[]|e] w1]; [|discriminate H].
    specialize (IH _ _ H) as (I1 & I2 & I3). cbn [filter].
    inversion S as [Hno| | | |text st' Hi Hr H1 H2 Hst]; subst.
    + rewrite Hno. auto.
    + rewrite Hi. rewrite I1, I2, I3. cbn [indexed calls ticks List.length].
      rewrite <- app_assoc, length_app. cbn [app List.length]. repeat split; lia.
Qed.

End RunReport.

(** X12: when [main] ends normally, the paths it printed as indexed are
    exactly the candidates that pass [should_index], in walking order;
    it made two backend calls and one clock read for each of them, and
    everything is committed. *)
Theorem successful_run_reports_what_it_indexed (E : Env) (w w' : World) :
  Indexer.main E w = (Ok tt, w') ->
  indexed w'
  = indexed w ++ filter (Indexer.should_index (env_fs E))
                        (Indexer.candidates E Indexer.TARGET_DIRS)
  /\ List.length (calls w')
     = (List.length (calls w)
        + 2 * List.length (filter (Indexer.should_index (env_fs E))
                                  (Indexer.candidates E Indexer.TARGET_DIRS)))%nat
  /\ ticks w'
     = (ticks w + List.length (filter (Indexer.should_index (env_fs E))
                                      (Indexer.candidates E Indexer.TARGET_DIRS)))%nat
  /\ conn w' = disk w'.
Proof.
  intros H. rewrite main_unfolds in H.
  destruct (batch_report E _ _ H) as (R1 & R2 & R3).
  repeat split; try assumption.
  clear R1 R2 R3. revert H.
  generalize (Indexer.candidates E Indexer.TARGET_DIRS) as files.
  assert (conn (Indexer.opened w) = disk (Indexer.opened w)) as Hc
      by reflexivity.
  revert Hc. generalize (Indexer.opened w) as w0.
  intros w0 Hc files. revert w0 Hc.
  induction files as [|p files IH]; intros w0 Hc H.
  - inversion H; subst. exact Hc.
  - cbn [for_each] in H. unfold bind in H.
    pose proof (index_path_step E p w0) as S.
    destruct (Indexer.index_path E p w0) as [[[]|e] w1]; [|discriminate H].
    apply (IH w1); [|exact H].
    inversion S; subst; [exact Hc|reflexivity].
Qed.

(** The diary is walked but not indexed; the note is. *)
Lemma successful_run_reports_what_it_indexed_witness :
  indexed (snd (Indexer.main Sample.with_diary Indexer.blank)) = [Sample.notes]
  /\ List.length (calls (snd (Indexer.main Sample.with_diary Indexer.blank)))
     = 2%nat.
Proof.
  destruct (@successful_run_reports_what_it_indexed
              Sample.with_diary Indexer.blank
              (snd (Indexer.main Sample.with_diary Indexer.blank)) eq_refl)
    as (H1 & H2 & _).
  split; [exact H1|exact H2].
Defined.

(* ------------------------------------------------------------------ *)
(** ** Truncation *)

Section Truncation.

Lemma slice_to_slice_to n m s :
  (n <= m)%nat -> PyStr.slice_to n (PyStr.slice_to m s) = PyStr.slice_to n s.
Proof.
  revert m s. induction n as [|n IH]; intros m s H.
  - now destruct (PyStr.slice_to m s), s.
  - destruct m as [|m]; [inversion H|]. destruct s as [|c s]; [reflexivity|].
    cbn [PyStr.slice_to]. f_equal. apply IH. now apply le_S_n.
Qed.

Lemma budget_below_snapshot :
  (Adapter.PROMPT_BUDGET <= Indexer.SNAPSHOT_LEN)%nat.
Proof. apply Nat.leb_le. vm_compute. reflexivity. Qed.

Lemma prompts_of_snapshot t1 t2 :
  PyStr.slice_to Indexer.SNAPSHOT_LEN t1 = PyStr.slice_to Indexer.SNAPSHOT_LEN t2 ->
  PyStr.slice_to Adapter.PROMPT_BUDGET t1 = PyStr.slice_to Adapter.PROMPT_BUDGET t2.
Proof.
  intros H.
  rewrite <- (slice_to_slice_to t1 budget_below_snapshot).
  rewrite <- (slice_to_slice_to t2 budget_below_snapshot).
  now rewrite H.
Qed.

End Truncation.

(** X13: only the first 10000 characters of a file count.  Two texts
    that agree on their first 10000 characters lead the loop body to the
    same result and the same world: the same backend calls, the same
    rows, the same output.  What lies beyond is silently dropped. *)
Theorem text_beyond_the_snapshot_is_ignored
        (E : Env) (p : Path) (t1 t2 : string) (w : World) :
  PyStr.slice_to 10000 t1 = PyStr.slice_to 10000 t2 ->
  Indexer.index_path (with_text E p t1) p w
  = Indexer.index_path (with_text E p t2) p w.
Proof.
  intros H.
  pose proof (prompts_of_snapshot t1 t2 H) as Hp.
  unfold Indexer.index_path.
  change (Indexer.should_index (env_fs (with_text E p t2)) p)
    with (Indexer.should_index (env_fs (with_text E p t1)) p).
  destruct (Indexer.should_index (env_fs (with_text E p t1)) p); [|reflexivity].
  cbn [negb]. unfold bind at 1, lift_result.
  unfold bind at 7, lift_result.
  cbn [with_text env_fs fs_read_text]. rewrite path_eqb_refl.
  change (Indexer.upsert_doc (with_text E p t1) p)
    with (Indexer.upsert_doc (with_text E p t2) p).
  unfold Adapter.summarize_private, Adapter.summarize_public,
    Adapter.private_prompt, Adapter.public_prompt.
  change (PyStr.slice_to 10000 t1)
    with (PyStr.slice_to Indexer.SNAPSHOT_LEN t1) in H.
  change (PyStr.slice_to 10000 t2)
    with (PyStr.slice_to Indexer.SNAPSHOT_LEN t2) in H.
  rewrite H, Hp. reflexivity.
Qed.

(** The 20000-character document and its first half. *)
Lemma text_beyond_the_snapshot_is_ignored_witness :
  Indexer.index_path
    (with_text Sample.notes_only Sample.notes Sample.long_text)
    Sample.notes Indexer.blank
  = Indexer.index_path
      (with_text Sample.notes_only Sample.notes
                 (PyStr.repeat_char "x" 10000))
      Sample.notes Indexer.blank.
Proof.
  apply (@text_beyond_the_snapshot_is_ignored
           Sample.notes_only Sample.notes Sample.long_text
           (PyStr.repeat_char "x" 10000) Indexer.blank).
  vm_compute. reflexivity.
Defined.

(* ------------------------------------------------------------------ *)
(** ** The adapter's answer *)

Section StripFacts.

Lemma lstrip_no_lead s : no_lead (PyStr.lstrip s).
Proof.
  induction s as [|c s IH]; cbn [PyStr.lstrip]; [exact I|].
  destruct (PyStr.is_space c) eqn:H; [exact IH|exact H].
Qed.

Lemma no_lead_lstrip s : no_lead s -> PyStr.lstrip s = s.
Proof. destruct s as [|c s]; cbn; [reflexivity|]. now intros ->. Qed.

Lemma no_lead_rstrip s : no_lead s -> no_lead (PyStr.rstrip s).
Proof.
  destruct s as [|c s]; cbn [PyStr.rstrip no_lead]; [auto|].
  intros H. rewrite H. exact H.
Qed.

Lemma rstrip_rstrip s : PyStr.rstrip (PyStr.rstrip s) = PyStr.rstrip s.
Proof.
  induction s as [|c s IH]; [reflexivity|]. cbn [PyStr.rstrip].
  destruct (PyStr.is_space c && PyStr.is_empty (PyStr.rstrip s)) eqn:H;
    [reflexivity|].
  cbn [PyStr.rstrip]. now rewrite IH, H.
Qed.

Lemma strip_fixed s :
  PyStr.lstrip (PyStr.strip s) = PyStr.strip s
  /\ PyStr.rstrip (PyStr.strip s) = PyStr.strip s
  /\ PyStr.strip (PyStr.strip s) = PyStr.strip s.
Proof.
  assert (PyStr.lstrip (PyStr.strip s) = PyStr.strip s) as L.
  { apply no_lead_lstrip. unfold PyStr.strip.
    apply no_lead_rstrip, lstrip_no_lead. }
  assert (PyStr.rstrip (PyStr.strip s) = PyStr.strip s) as R.
  { unfold PyStr.strip. apply rstrip_rstrip. }
  repeat split; try assumption.
  unfold PyStr.strip at 1. now rewrite L, R.
Qed.

End StripFacts.

(** X14: when [ollama_generate] returns, the process ended with status
    0 after a single [ollama run llama3.1] call fed the prompt, and the
    text returned is the standard output with its surrounding white
    space removed: stripping it again, on either side, changes
    nothing.  The database is not touched. *)
Theorem ollama_generate_returns_trimmed_output
        (E : Env) (prompt s : string) (w w' : World) :
  Adapter.ollama_generate E prompt w = (Ok s, w') ->
  let c := mkCall ["ollama"; "run"; "llama3.1"] prompt in
  returncode (env_run E (calls w) c) = 0%Z
  /\ s = PyStr.strip (stdout (env_run E (calls w) c))
  /\ PyStr.strip s = s /\ PyStr.lstrip s = s /\ PyStr.rstrip s = s
  /\ calls w' = calls w ++ [c]
  /\ conn w' = conn w /\ disk w' = disk w.
Proof.
  intros H c.
  destruct (returncode (env_run E (calls w) c) =? 0)%Z eqn:Hrc.
  - rewrite (ollama_generate_succeeds E prompt w Hrc) in H.
    inversion H; subst. apply Z.eqb_eq in Hrc.
    destruct (strip_fixed (stdout (env_run E (calls w) c))) as (L & R & S).
    repeat split; assumption || reflexivity.
  - rewrite (ollama_generate_fails E prompt w Hrc) in H. discriminate H.
Qed.

Lemma ollama_generate_returns_trimmed_output_witness :
  PyStr.strip "- a meeting about pay" = "- a meeting about pay"
  /\ calls (snd (Adapter.ollama_generate Sample.notes_only "hello" Indexer.blank))
     = [mkCall ["ollama"; "run"; "llama3.1"] "hello"].
Proof.
  destruct (@ollama_generate_returns_trimmed_output
              Sample.notes_only "hello" "- a meeting about pay" Indexer.blank
              (snd (Adapter.ollama_generate Sample.notes_only "hello"
                                            Indexer.blank))
              eq_refl) as (_ & _ & H & _ & _ & Hc & _).
  split; [exact H|exact Hc].
Defined.

(* ------------------------------------------------------------------ *)
(** ** The service endpoint *)

(** X15: with the configured token, a call whose header is absent
    (empty) or differs from the token is answered with status 401 and
    does nothing else: the backend is not called and the world is as it
    was.  Were the configured token empty, no header would be asked
    for. *)
Theorem api_rejects_a_wrong_token
        (E : Env) (req : Api.SummarizeRequest) (x_token : string) (w : World) :
  x_token <> Api.API_TOKEN ->
  Api.summarize E req x_token w = (Api.HTTPException 401 "Unauthorized", w)
  /\ Api.summarize E req "" w = (Api.HTTPException 401 "Unauthorized", w)
  /\ Api.summarize_with "" E req x_token w
     = Api.summarize E req Api.API_TOKEN w.
Proof.
  intros H. apply String.eqb_neq in H.
  unfold Api.summarize, Api.summarize_with.
  rewrite H. repeat split.
Qed.

Lemma api_rejects_a_wrong_token_witness :
  Api.summarize Sample.notes_only (Api.mkRequest "text" "private") "change_me"
                Indexer.blank
  = (Api.HTTPException 401 "Unauthorized", Indexer.blank).
Proof.
  apply (@api_rejects_a_wrong_token
           Sample.notes_only (Api.mkRequest "text" "private") "change_me"
           Indexer.blank).
  discriminate.
Defined.

(** X16: with the right token the endpoint makes exactly one backend
    call, on the first 6000 characters of the text.  The call carries
    the private instruction only when the mode is literally ["private"];
    any other mode, the default ["public"] or a misspelt one, gets the
    redacting instruction.  A zero status returns the stripped output,
    any other status lets the adapter's error through. *)
Theorem api_redacts_unless_private_is_asked
        (E : Env) (req : Api.SummarizeRequest) (w : World) :
  let c := if String.eqb (Api.req_mode req) "private"
           then Adapter.private_call (Api.req_text req)
           else Adapter.public_call (Api.req_text req) in
  let proc := env_run E (calls w) c in
  Api.summarize E req Api.API_TOKEN w
  = (if (returncode proc =? 0)%Z
     then Api.Returned (PyStr.strip (stdout proc))
     else Api.Raised (Adapter.backend_error proc),
     mkWorld (conn w) (disk w) (calls w ++ [c]) (ticks w) (indexed w))
  /\ (call_input c
      = (Adapter.private_instruction
         ++ PyStr.slice_to 6000 (Api.req_text req))%string
      \/ call_input c
         = (Adapter.public_instruction
            ++ PyStr.slice_to 6000 (Api.req_text req))%string)
  /\ (call_input c
      = (Adapter.private_instruction
         ++ PyStr.slice_to 6000 (Api.req_text req))%string
      <-> Api.req_mode req = "private").
Proof.
  intros c proc. split; [|split].
  - unfold Api.summarize, Api.summarize_with.
    replace (negb (PyStr.is_empty Api.API_TOKEN)
             && negb (Api.API_TOKEN =? Api.API_TOKEN)%string) with false
      by reflexivity.
    unfold Adapter.summarize_private, Adapter.summarize_public.
    subst proc c.
    destruct (String.eqb (Api.req_mode req) "private");
      match goal with
      | |- context [(returncode (env_run E (calls w) ?c0) =? 0)%Z] =>
          destruct (returncode (env_run E (calls w) c0) =? 0)%Z eqn:Hrc
      end;
      first [ rewrite (ollama_generate_succeeds E _ w Hrc)
            | rewrite (ollama_generate_fails E _ w Hrc) ];
      reflexivity.
  - subst c. destruct (String.eqb (Api.req_mode req) "private");
      [left|right]; reflexivity.
  - subst c. destruct (String.eqb (Api.req_mode req) "private") eqn:Hm.
    + apply String.eqb_eq in Hm. split; auto.
    + apply String.eqb_neq in Hm. split; [|contradiction].
      cbn [Adapter.public_call call_input]. unfold Adapter.public_prompt.
      intros Heq. exfalso.
      assert (String.get 32 (Adapter.public_instruction
                             ++ PyStr.slice_to 6000 (Api.req_text req))
              = String.get 32 (Adapter.private_instruction
                               ++ PyStr.slice_to 6000 (Api.req_text req)))
        as G by (f_equal; exact Heq).
      lazy in G. discriminate G.
Qed.

(* ------------------------------------------------------------------ *)
(** ** More on the query *)

Section QueryMore.
Import Query.

Lemma like_underscore p s :
  like (String "_" p) s
  = match s with
    | EmptyString => false
    | String _ s' => like p s'
    end.
Proof. destruct s; reflexivity. Qed.

Lemma sqlite_lower_twice c : sqlite_lower (sqlite_lower c) = sqlite_lower c.
Proof.
  destruct c as [[|] [|] [|] [|] [|] [|] [|] [|]]; reflexivity.
Qed.

Lemma like_fold_text p : forall s, like p (fold_ascii s) = like p s.
Proof.
  induction p as [|c p IH]; intros s.
  - now destruct s.
  - destruct (Ascii.eqb c "%") eqn:Hp.
    { apply Ascii.eqb_eq in Hp. subst c.
      induction s as [|d s IHs].
      - reflexivity.
      - cbn [fold_ascii].
        rewrite (like_percent p (String d s)).
        rewrite (like_percent p (String (sqlite_lower d) (fold_ascii s))).
        rewrite IHs. f_equal.
        change (String (sqlite_lower d) (fold_ascii s))
          with (fold_ascii (String d s)).
        apply IH. }
    destruct (Ascii.eqb c "_") eqn:Hu.
    { apply Ascii.eqb_eq in Hu. subst c. rewrite !like_underscore.
      destruct s as [|d s]; [reflexivity|]. cbn [fold_ascii]. apply IH. }
    assert (is_wildcard c = false) as Hw
        by (unfold is_wildcard; now rewrite Hp, Hu).
    rewrite !like_literal by exact Hw.
    destruct s as [|d s]; [reflexivity|]. cbn [fold_ascii]. rewrite IH.
    unfold nocase_eqb. now rewrite sqlite_lower_twice.
Qed.

Lemma joined_map_summaries f st :
  joined (map_summaries f st)
  = map (fun cd => (mkChunk (doc_id (fst cd)) (layer (fst cd))
                            (content (fst cd)) (tags (fst cd))
                            (f (summary (fst cd))),
                    snd cd))
        (joined st).
Proof.
  unfold joined, map_summaries. cbn [docs chunks].
  induction (chunks st) as [|c cs IH]; [reflexivity|].
  cbn [map flat_map]. rewrite IH, map_app, map_map. reflexivity.
Qed.

Lemma filter_map_commute {A B} (g : A -> B) (f : B -> bool) l :
  filter f (map g l) = map g (filter (fun x => f (g x)) l).
Proof.
  induction l as [|x l IH]; [reflexivity|]. cbn [map filter].
  destruct (f (g x)); cbn [map]; now rewrite IH.
Qed.

Lemma like_double_percent s : like "%%" s = true.
Proof.
  induction s as [|c s IH]; [reflexivity|].
  rewrite like_percent, like_percent_alone. reflexivity.
Qed.

End QueryMore.

(** X17: the empty keyword matches every summary: [search("")] returns
    the first ten rows of the public layer in storage order, whatever
    the summaries say. *)
Theorem empty_keyword_returns_the_public_layer (st : Store) :
  Query.search "" st
  = firstn 10
      (map (fun cd => (path (snd cd), summary (fst cd)))
           (filter (fun cd => String.eqb (layer (fst cd)) "public")
                   (Query.joined st)))
  /\ (List.length (Query.search "" st)
      = Nat.min 10
          (List.length (filter (fun cd => String.eqb (layer (fst cd)) "public")
                               (Query.joined st))))%nat.
Proof.
  assert (Query.search "" st
          = firstn 10
              (map (fun cd => (path (snd cd), summary (fst cd)))
                   (filter (fun cd => String.eqb (layer (fst cd)) "public")
                           (Query.joined st)))) as H.
  { unfold Query.search. rewrite fetchall_in_storage_order.
    change Query.LIMIT with 10%nat. do 2 f_equal.
    apply filter_ext. intros cd. unfold Query.where_clause.
    change (Query.pattern_of (PyStr.lower "")) with "%%".
    now rewrite like_double_percent, andb_true_r. }
  split; [exact H|]. now rewrite H, length_firstn, length_map.
Qed.

(** X18: the query does not see the case of ASCII letters in a
    summary.  On the store with every summary put in lower case (ASCII
    letters only) a search returns the rows it returns on the original
    store, each with its summary in lower case. *)
Theorem search_ignores_case_of_summaries (keyword : string) (st : Store) :
  Query.search keyword (map_summaries fold_ascii st)
  = map (fun row => (fst row, fold_ascii (snd row)))
        (Query.search keyword st)
  /\ map fst (Query.search keyword (map_summaries fold_ascii st))
     = map fst (Query.search keyword st).
Proof.
  assert (Query.search keyword (map_summaries fold_ascii st)
          = map (fun row => (fst row, fold_ascii (snd row)))
                (Query.search keyword st)) as H.
  { unfold Query.search, Query.fetchall, Query.selected.
    rewrite joined_map_summaries, filter_map_commute, firstn_map, !map_map.
    cbn [fst snd summary]. f_equal. f_equal.
    apply filter_ext. intros [c d]. unfold Query.where_clause.
    cbn [fst layer summary]. now rewrite like_fold_text. }
  split; [exact H|]. rewrite H, map_map. reflexivity.
Qed.

Lemma ascii_text_ascii_only s :
  ascii_text s = true -> Query.ascii_only s = true.
Proof.
  induction s as [|c s IH]; [reflexivity|].
  cbn [ascii_text Query.ascii_only]. intros H.
  apply andb_true_iff in H as [H Hs].
  apply andb_true_iff in H as [_ Hc].
  rewrite Hc. exact (IH Hs).
Qed.

(** X19: on text in ASCII that holds no NUL character, a keyword in
    ASCII without NUL that holds neither [%] nor [_], and whose pattern
    is within SQLite's limit of 50000 bytes, is searched for by plain
    containment: the rows returned are the public rows whose summary
    holds the keyword when case is ignored, in storage order, at most
    ten. *)
Theorem search_agrees_with_spec_on_plain_ascii (keyword : string) (st : Store) :
  Query.plain keyword = true ->
  ascii_text keyword = true ->
  (String.length (Query.pattern_of (PyStr.lower keyword))
   <= SQLITE_MAX_LIKE_PATTERN_LENGTH)%nat ->
  Forall (fun c => ascii_text (summary c) = true) (chunks st) ->
  Query.search keyword st = substring_search keyword st.
Proof.
  intros Hp Hk _ Hs. unfold Query.search, substring_search.
  rewrite fetchall_in_storage_order. change Query.LIMIT with 10%nat.
  do 2 f_equal. apply filter_ext_in. intros [c d] Hin.
  apply joined_in in Hin as (Hc & _ & _).
  unfold Query.where_clause. cbn [fst]. f_equal.
  apply like_matches_spec_on_plain_ascii;
    [exact Hp|exact (ascii_text_ascii_only _ Hk)|].
  apply ascii_text_ascii_only.
  exact (proj1 (Forall_forall _ _) Hs c Hc).
Qed.

Lemma search_agrees_with_spec_on_plain_ascii_witness :
  Query.search "ABC" Sample.small_store = substring_search "ABC" Sample.small_store
  /\ substring_search "ABC" Sample.small_store = [(Sample.notes, "abc")].
Proof.
  split; [|reflexivity].
  apply (@search_agrees_with_spec_on_plain_ascii "ABC" Sample.small_store);
    [reflexivity|reflexivity| |repeat constructor].
  apply Nat.leb_le. vm_compute. reflexivity.
Defined.

(* ------------------------------------------------------------------ *)
(** ** The adapter's error *)

(** X20: when the process ends with a status other than 0,
    [ollama_generate] raises a [RuntimeError] whose text is never empty
    and has no white space around it: the stripped standard error, or
    ["ollama run failed"] when that is blank.  Standard output is not
    looked at. *)
Theorem backend_error_text_is_never_blank
        (E : Env) (prompt : string) (w : World) :
  let c := mkCall ["ollama"; "run"; "llama3.1"] prompt in
  let proc := env_run E (calls w) c in
  returncode proc <> 0%Z ->
  exists msg,
    fst (Adapter.ollama_generate E prompt w) = Raise (RuntimeError msg)
    /\ msg <> EmptyString
    /\ PyStr.strip msg = msg
    /\ (PyStr.strip (stderr proc) = EmptyString -> msg = "ollama run failed")
    /\ (PyStr.strip (stderr proc) <> EmptyString
        -> msg = PyStr.strip (stderr proc)).
Proof.
  intros c proc H. apply Z.eqb_neq in H.
  rewrite (ollama_generate_fails E prompt w H). cbn [fst].
  change (mkCall (Adapter.ollama_cmd Adapter.DEFAULT_MODEL) prompt) with c.
  fold proc. unfold Adapter.backend_error.
  destruct (PyStr.strip (stderr proc)) as [|a s] eqn:Hs; cbn [PyStr.is_empty].
  - exists "ollama run failed".
    split; [reflexivity|]. split; [discriminate|]. split; [reflexivity|].
    split; [reflexivity|]. intros N. contradiction.
  - exists (String a s).
    split; [reflexivity|]. split; [discriminate|].
    split; [rewrite <- Hs; apply strip_fixed|].
    split; [intros N; discriminate N|reflexivity].
Qed.

Lemma backend_error_text_is_never_blank_witness :
  exists msg,
    fst (Adapter.ollama_generate (Sample.env [] Sample.down) "hello"
                                 Indexer.blank)
    = Raise (RuntimeError msg)
    /\ msg <> EmptyString
    /\ PyStr.strip msg = msg
    /\ (PyStr.strip (stderr (Sample.down [] (mkCall ["ollama"; "run"; "llama3.1"]
                                                    "hello")))
        = EmptyString -> msg = "ollama run failed")
    /\ (PyStr.strip (stderr (Sample.down [] (mkCall ["ollama"; "run"; "llama3.1"]
                                                    "hello")))
        <> EmptyString
        -> msg = PyStr.strip
                   (stderr (Sample.down [] (mkCall ["ollama"; "run"; "llama3.1"]
                                                   "hello")))).
Proof.
  apply (@backend_error_text_is_never_blank
           (Sample.env [] Sample.down) "hello" Indexer.blank).
  discriminate.
Defined.

(* ------------------------------------------------------------------ *)
(** ** A run that fails keeps what came before *)

Section Progress.
Import Indexer.


End Progress.



(* ------------------------------------------------------------------ *)
(** ** The indexer and the query together *)

Section IndexThenSearch.
Import Indexer Query.

Lemma NoDup_map_filter {A B} (g : A -> B) (f : A -> bool) l :
  NoDup (map g l) -> NoDup (map g (filter f l)).
Proof.
  induction l as [|x l IH]; cbn [map filter]; intros H; [constructor|].
  apply NoDup_cons_iff in H as [Hx Hl].
  destruct (f x); [|now apply IH]. cbn [map]. constructor; [|now apply IH].
  intros Hin. apply Hx. apply in_map_iff in Hin as (y & Hy & Hin).
  apply filter_In in Hin as [Hin _]. rewrite <- Hy. now apply in_map.
Qed.

Lemma NoDup_map_firstn {A B} (g : A -> B) n : forall l,
  NoDup (map g l) -> NoDup (map g (firstn n l)).
Proof.
  induction n as [|n IH]; intros [|x l] H; cbn [firstn map]; try constructor.
  - cbn [map] in H. apply NoDup_cons_iff in H as [Hx Hl].
    intros Hin. apply Hx. apply in_map_iff in Hin as (y & Hy & Hin).
    apply firstn_incl in Hin. rewrite <- Hy. now apply in_map.
  - cbn [map] in H. apply NoDup_cons_iff in H as [_ Hl]. now apply IH.
Qed.

(** The public rows of the join name each path once when no two
    document rows have the same path and no document has two public
    chunk rows. *)
Lemma public_rows_name_paths_once ds : forall cs,
  NoDup (map path ds) ->
  (forall d, (List.length (filter (same_key d "public") cs) <= 1)%nat) ->
  NoDup (map (fun cd : ChunkRow * DocRow => path (snd cd))
             (filter (fun cd => String.eqb (layer (fst cd)) "public")
                     (flat_map (fun c =>
                                  map (fun d => (c, d))
                                      (filter (fun d => (doc_id c =? id d)%Z) ds))
                               cs))).
Proof.
  intros cs Hpaths. induction cs as [|c cs IH]; intros Hone.
  { constructor. }
  assert (forall d, (List.length (filter (same_key d "public") cs) <= 1)%nat)
    as Hone'.
  { intros d. specialize (Hone d). cbn [filter] in Hone.
    destruct (same_key d "public" c); cbn [List.length] in Hone; lia. }
  cbn [flat_map]. rewrite filter_app, map_app.
  destruct (String.eqb (layer c) "public") eqn:Hl.
  - rewrite (filter_all (fun cd : ChunkRow * DocRow =>
                           String.eqb (layer (fst cd)) "public")
               (l := map (fun d => (c, d))
                         (filter (fun d => (doc_id c =? id d)%Z) ds))).
    2:{ apply Forall_forall. intros cd Hin.
        apply in_map_iff in Hin as (d & <- & _). exact Hl. }
    rewrite map_map. cbn [snd].
    apply NoDup_app; [now apply NoDup_map_filter|now apply IH|].
    intros pth H1 H2.
    apply in_map_iff in H1 as (d1 & Hp1 & Hd1).
    apply filter_In in Hd1 as [Hin1 Hid1]. apply Z.eqb_eq in Hid1.
    apply in_map_iff in H2 as ([c2 d2] & Hp2 & Hcd2). cbn [snd] in Hp2.
    apply filter_In in Hcd2 as [Hcd2 Hl2]. cbn [fst] in Hl2.
    apply in_flat_map in Hcd2 as (c2' & Hc2 & Hin2).
    apply in_map_iff in Hin2 as (d2' & Heq & Hd2). inversion Heq; subst c2' d2'.
    apply filter_In in Hd2 as [Hin2 Hid2]. apply Z.eqb_eq in Hid2.
    assert (d1 = d2) as ->
        by (apply (map_injective_on path ds); auto; congruence).
    specialize (Hone (doc_id c)). cbn [filter] in Hone.
    unfold same_key at 1 in Hone. rewrite Z.eqb_refl, Hl in Hone.
    cbn [andb List.length] in Hone.
    assert (In c2 (filter (same_key (doc_id c) "public") cs)) as Hin.
    { apply filter_In. split; [exact Hc2|].
      apply same_key_spec. split; [congruence|now apply String.eqb_eq]. }
    destruct (filter (same_key (doc_id c) "public") cs); [contradiction|].
    cbn [List.length] in Hone. lia.
  - rewrite (filter_none (fun cd : ChunkRow * DocRow =>
                            String.eqb (layer (fst cd)) "public")
               (l := map (fun d => (c, d))
                         (filter (fun d => (doc_id c =? id d)%Z) ds))).
    2:{ apply Forall_forall. intros cd Hin.
        apply in_map_iff in Hin as (d & <- & _). exact Hl. }
    now apply IH.
Qed.

Lemma search_names_paths_once keyword st :
  NoDup (map path (docs st)) ->
  (forall d,
      (List.length (filter (same_key d "public") (chunks st)) <= 1)%nat) ->
  NoDup (map fst (search keyword st)).
Proof.
  intros Hpaths Hone.
  unfold search, fetchall, selected. rewrite map_map. cbn [fst].
  apply NoDup_map_firstn.
  pose proof (@public_rows_name_paths_once (docs st) (chunks st)
                Hpaths Hone) as H.
  apply (NoDup_map_filter (fun cd : ChunkRow * DocRow => path (snd cd))
           (fun cd => like (pattern_of (PyStr.lower keyword))
                           (summary (fst cd)))) in H.
  rewrite filter_twice in H. exact H.
Qed.

End IndexThenSearch.

(** X22: a search never lists a document twice.  On a store in which
    no two document rows have the same path and no document has two
    public chunk rows, the paths of the rows returned are pairwise
    different, whatever else the store holds or lacks; and so they are
    on every database reached by batch runs from the empty one. *)
Theorem search_lists_a_document_once
        (keyword : string) (st : Store) (Es : list Env) :
  NoDup (map path (docs st)) ->
  (forall d,
      (List.length (filter (Indexer.same_key d "public") (chunks st)) <= 1)%nat) ->
  NoDup (map fst (Query.search keyword st))
  /\ NoDup (map fst (Query.search keyword
                       (disk (Indexer.after_runs Es Indexer.blank)))).
Proof.
  intros Hp H1. split; [now apply search_names_paths_once|].
  destruct (@after_runs_complete Es Indexer.blank blank_complete)
    as ([_ Hpaths] & _ & Hone).
  apply search_names_paths_once; [exact Hpaths|].
  intros d. apply Hone.
Qed.

(** A store with two documents, the first with a public chunk only and
    the second with no chunk at all. *)
Lemma search_lists_a_document_once_witness :
  NoDup (map fst (Query.search "a"
                    (mkStore [mkDoc 1 Sample.notes "scratchpad" "t0" "t0";
                              mkDoc 2 Sample.locked "scratchpad" "t1" "t1"]
                             [mkChunk 1 "public" "text" "" "abc"])))
  /\ NoDup (map fst (Query.search "a"
                       (disk (Indexer.after_runs [Sample.notes_only]
                                                 Indexer.blank)))).
Proof.
  apply (@search_lists_a_document_once "a"
           (mkStore [mkDoc 1 Sample.notes "scratchpad" "t0" "t0";
                     mkDoc 2 Sample.locked "scratchpad" "t1" "t1"]
                    [mkChunk 1 "public" "text" "" "abc"])
           [Sample.notes_only]).
  - cbn [docs map path]. constructor; [|repeat constructor; intros []].
    intros [H|[]]. vm_compute in H. discriminate H.
  - intros d. cbn [chunks filter].
    destruct (Indexer.same_key d "public" (mkChunk 1 "public" "text" "" "abc"));
      cbn [List.length]; lia.
Defined.

(** X23: what is indexed can be found.  After the loop body has
    indexed a path, every keyword whose pattern matches the public
    summary written for it selects the row (path, public summary): the
    row is among the matches of the query on the committed database, and
    it is among the rows returned whenever there are at most ten
    matches. *)
Theorem indexed_document_is_found
        (E : Env) (p : Path) (w w' : World) (keyword : string) :
  Indexer.should_index (env_fs E) p = true ->
  Indexer.index_path E p w = (Ok tt, w') ->
  exists text,
    fs_read_text (env_fs E) p = Ok text
    /\ let s := PyStr.strip
                  (stdout (env_run E (calls w ++ [Adapter.private_call text])
                                   (Adapter.public_call text))) in
       let matches :=
         filter (Query.where_clause (Query.pattern_of (PyStr.lower keyword)))
                (Query.joined (disk w')) in
       Query.like (Query.pattern_of (PyStr.lower keyword)) s = true ->
       In (p, s) (map (fun cd => (path (snd cd), summary (fst cd))) matches)
       /\ ((List.length matches <= 10)%nat ->
           In (p, s) (Query.search keyword (disk w'))).
Proof.
  intros Hidx Hrun.
  pose proof (index_path_step E p w) as S. rewrite Hrun in S.
  inversion S as [ Hno | | | | text st' Hi Hr H1 H2 Hst Hw]; [congruence|].
  subst st' w'. exists text. split; [exact Hr|]. intros s matches Hlike.
  assert (In (p, s) (map (fun cd => (path (snd cd), summary (fst cd))) matches))
    as Hin.
  { destruct (registered_has_row E p w) as (r & Hinr & Hid & Hp).
    destruct (write_chunks_own (fst (Indexer.registered E p w)) text
                (PyStr.strip (stdout (env_run E (calls w)
                                              (Adapter.private_call text))))
                s (snd (Indexer.registered E p w))) as [_ Hpub].
    apply in_map_iff.
    exists (mkChunk (fst (Indexer.registered E p w)) "public"
                    (PyStr.slice_to Indexer.SNAPSHOT_LEN text) "" s, r).
    cbn [fst snd summary]. split; [now rewrite Hp|].
    apply filter_In. split.
    - apply joined_in. cbn [disk doc_id]. rewrite write_chunks_docs.
      split; [|split; [exact Hinr|now rewrite Hid]].
      assert (In (mkChunk (fst (Indexer.registered E p w)) "public"
                          (PyStr.slice_to Indexer.SNAPSHOT_LEN text) "" s)
                 [mkChunk (fst (Indexer.registered E p w)) "public"
                          (PyStr.slice_to Indexer.SNAPSHOT_LEN text) "" s])
        as Hone by now left.
      rewrite <- Hpub in Hone. apply filter_In in Hone. exact (proj1 Hone).
    - unfold Query.where_clause. cbn [fst layer summary].
      now rewrite Hlike. }
  split; [exact Hin|]. intros Hlen.
  unfold Query.search, Query.fetchall, Query.selected.
  fold matches. rewrite firstn_all2 by exact Hlen. exact Hin.
Qed.

Lemma indexed_document_is_found_witness :
  In (Sample.notes, "- a meeting about pay")
     (Query.search "PAY"
        (disk (snd (Indexer.index_path Sample.notes_only Sample.notes
                                       Indexer.blank)))).
Proof.
  destruct (@indexed_document_is_found
              Sample.notes_only Sample.notes Indexer.blank
              (snd (Indexer.index_path Sample.notes_only Sample.notes
                                       Indexer.blank))
              "PAY" eq_refl eq_refl) as (text & Hr & H).
  cbv zeta in H.
  assert (text = Sample.notes_text) as ->
      by (vm_compute in Hr; injection Hr as <-; reflexivity).
  destruct (H eq_refl) as [_ Hin].
  apply Hin. vm_compute. lia.
Defined.

(* ------------------------------------------------------------------ *)
(** ** Indexing the same tree again registers nothing new *)

Section RerunRegistry.
Import Indexer.

Lemma resolved_kept p ds ds' :
  resolves_like ds ds' -> resolved p ds -> resolved p ds'.
Proof. intros H (r & Hr). destruct (H p r Hr) as (r' & Hr' & _). now exists r'. Qed.

Lemma success_resolves E files : forall w w',
  conn w = disk w ->
  for_each files (index_path E) w = (Ok tt, w') ->
  Forall (fun p => should_index (env_fs E) p = true ->
                   resolved p (docs (disk w'))) files.
Proof.
  induction files as [|p files IH]; intros w w' Hc H; [constructor|].
  cbn [for_each] in H. unfold bind in H.
  pose proof (index_path_step E p w) as S.
  destruct (index_path E p w) as [[[]|e] w1] eqn:Hp; [|discriminate H].
  assert (conn w1 = disk w1) as Hc1
      by (inversion S; subst; [exact Hc|reflexivity]).
  constructor; [|exact (IH w1 w' Hc1 H)].
  intros Hi.
  pose proof (batch_resolves E files w1 Hc1) as Hkeep. rewrite H in Hkeep.
  cbn [snd] in Hkeep. apply (resolved_kept Hkeep).
  inversion S as [Hno| | | |text st' Hs Hr H1 H2 Hst]; subst; [congruence|].
  cbn [disk]. rewrite write_chunks_docs.
  destruct (upsert_doc_store_selects (env_clock E (ticks w)) p (conn w))
    as (r & Hsel & _).
  now exists r.
Qed.

Lemma resolved_run_adds_nothing E files : forall u,
  conn u = disk u ->
  Forall (fun p => should_index (env_fs E) p = true ->
                   resolved p (docs (disk u))) files ->
  map doc_identity (docs (disk (snd (for_each files (index_path E) u))))
  = map doc_identity (docs (disk u)).
Proof.
  induction files as [|p files IH]; intros u Hc Hall; [reflexivity|].
  inversion Hall as [|? ? Hp Hrest]; subst.
  cbn [for_each]. unfold bind.
  pose proof (index_path_step E p u) as S.
  destruct (index_path E p u) as [[[]|e] u1].
  - inversion S as [Hno| | | |text st' Hs Hr H1 H2 Hst]; subst.
    + now apply IH.
    + destruct (Hp Hs) as (r & Hsel). rewrite <- Hc in Hsel.
      assert (docs (snd (registered E p u))
              = touch_doc (env_clock E (ticks u)) (id r) (docs (conn u))) as Hd.
      { unfold registered.
        now rewrite (upsert_doc_store_known (env_clock E (ticks u)) p (conn u) Hsel). }
      rewrite IH; cbn [conn disk]; [| reflexivity |].
      * rewrite write_chunks_docs, Hd, touch_doc_identity. now rewrite Hc.
      * rewrite write_chunks_docs.
        eapply Forall_impl; [|exact Hrest]. intros q Hq Hiq.
        apply (@resolved_kept q (docs (disk u))); [|now apply Hq].
        rewrite <- Hc. apply upsert_doc_store_resolves.
  - cbn [snd]. inversion S; subst; reflexivity.
Qed.

End RerunRegistry.

(** X24: indexing an unchanged tree again registers no new document.
    After a run that ended normally, a second run over the same tree,
    however it ends and whatever the backend answers, leaves the
    document rows with the ids, paths, sources and creation times they
    had, in the same order; at most their update times move. *)
Theorem rerun_registers_nothing_new (E : Env) (w : World) :
  fst (Indexer.main E w) = Ok tt ->
  map doc_identity
      (docs (Indexer.database_after
               (Indexer.main E (snd (Indexer.main E w)))))
  = map doc_identity (docs (Indexer.database_after (Indexer.main E w))).
Proof.
  intros Hok. unfold Indexer.database_after.
  rewrite (main_unfolds E (snd (Indexer.main E w))).
  rewrite (main_unfolds E w) in *.
  set (files := Indexer.candidates E Indexer.TARGET_DIRS) in *.
  destruct (for_each files (Indexer.index_path E) (Indexer.opened w))
    as [r w1] eqn:Hrun.
  cbn [fst snd] in *. subst r.
  pose proof (@success_resolves E files (Indexer.opened w) w1 eq_refl Hrun)
    as Hres.
  exact (@resolved_run_adds_nothing E files (Indexer.opened w1) eq_refl Hres).
Qed.

(** The sample note indexed twice. *)
Lemma rerun_registers_nothing_new_witness :
  map doc_identity
      (docs (Indexer.database_after
               (Indexer.main Sample.notes_only
                             (snd (Indexer.main Sample.notes_only
                                                Indexer.blank)))))
  = map doc_identity
        (docs (Indexer.database_after
                 (Indexer.main Sample.notes_only Indexer.blank))).
Proof.
  apply (@rerun_registers_nothing_new Sample.notes_only Indexer.blank).
  reflexivity.
Defined.
